(** * sf-av-transcriptions: segment processing, export and stage sync

    A shallow embedding of the parts of
    [streamlit/transcription_dashboard.py] and
    [av.uploader/upload_av_files.py] that carry logic:

    - [find_matching_segments_with_context] (match locator and context
      window extractor),
    - the grouping loops of [display_speaker_transcript] and
      [display_search_result_with_speakers] (the segment normalizer),
    - the four export converters ([..._to_csv], [..._to_srt]),
    - [get_stage_files] and the upload plan of [upload_av_files].

    Conventions of the embedding.

    - A segment is a JSON object read with [dict.get]; it is a record of
      optional fields, [None] standing for an absent key.
    - Numbers are Python floats: IEEE binary64 values, computed with the
      executable operations of [SpecFloat] at precision 53.  An integer
      JSON literal below 2^53 is its exact float.
    - Text is ASCII: [string] of the standard library; [lower] and [strip]
      act on the ASCII letters and ASCII white space.
    - Code that can raise returns a [result]; loops are folds over the
      sequence they iterate, with the loop variables as the state. *)

From Stdlib Require Import ZArith String Ascii List SpecFloat Sorted Permutation.
From stdpp Require Import base option list sorting gmap strings pretty.

Local Open Scope string_scope.
Local Open Scope list_scope.
Local Open Scope Z_scope.

(** ** Python built-ins used by the two scripts *)

Module Py.

(** *** Exceptions *)

Inductive exn : Type :=
| ValueError (msg : string)
| OverflowError (msg : string)
| IndexError (msg : string)
| Error (msg : string).

Inductive result (A : Type) : Type :=
| Ok (a : A)
| Raise (e : exn).
Global Arguments Ok {A} a.
Global Arguments Raise {A} e.

Global Instance result_ret : MRet result := fun A a => Ok a.
Global Instance result_bind : MBind result := fun A B f m =>
  match m with
  | Ok a => f a
  | Raise e => Raise e
  end.

(** *** Floats (binary64) *)

Definition float : Type := spec_float.
Definition prec : Z := 53.
Definition emax : Z := 1024.

(** [float(n)] for an integer [n], rounded to nearest even. *)
Definition of_int (n : Z) : float := binary_normalize prec emax n 0 false.

Definition fsub (x y : float) : float := SFsub prec emax x y.
Definition fmul (x y : float) : float := SFmul prec emax x y.
Definition fdiv (x y : float) : float := SFdiv prec emax x y.
Definition fabs (x : float) : float := SFabs x.
Definition flt (x y : float) : bool := SFltb x y.

(** The float of a decimal literal [n/d] with [n] and [d] exact, such as
    [15.2 = 152/10]: the nearest binary64 value. *)
Definition decimal (n d : Z) : float := fdiv (of_int n) (of_int d).

Definition is_nan (x : float) : bool :=
  match x with
  | S754_nan => true
  | _ => false
  end.

Definition is_finite (x : float) : bool :=
  match x with
  | S754_zero _ | S754_finite _ _ _ => true
  | _ => false
  end.

(** [bool(x)]: zero of either sign is falsy, everything else (NaN too)
    is truthy. *)
Definition float_truthy (x : float) : bool :=
  match x with
  | S754_zero _ => false
  | _ => true
  end.

(** [int(x)]: truncation toward zero; NaN and the infinities raise. *)
Definition int (x : float) : result Z :=
  match x with
  | S754_zero _ => Ok 0
  | S754_finite s m e =>
      let v := match e with
               | Zneg p => Z.shiftr (Zpos m) (Zpos p)
               | _ => Z.shiftl (Zpos m) e
               end in
      Ok (if s then - v else v)
  | S754_infinity _ => Raise (OverflowError "cannot convert float infinity to integer")
  | S754_nan => Raise (ValueError "cannot convert float NaN to integer")
  end.

(** *** Strings *)

Definition is_upper (c : ascii) : bool :=
  let n := nat_of_ascii c in (65 <=? n)%nat && (n <=? 90)%nat.

Definition lower_char (c : ascii) : ascii :=
  if is_upper c then ascii_of_nat (nat_of_ascii c + 32) else c.

(** [s.lower()] *)
Fixpoint lower (s : string) : string :=
  match s with
  | EmptyString => EmptyString
  | String c s' => String (lower_char c) (lower s')
  end.

Definition is_lower (c : ascii) : bool :=
  let n := nat_of_ascii c in (97 <=? n)%nat && (n <=? 122)%nat.

Definition upper_char (c : ascii) : ascii :=
  if is_lower c then ascii_of_nat (nat_of_ascii c - 32) else c.

(** [s.upper()] *)
Fixpoint upper (s : string) : string :=
  match s with
  | EmptyString => EmptyString
  | String c s' => String (upper_char c) (upper s')
  end.

(** [s.startswith(prefix)] *)
Fixpoint startswith (prefix s : string) : bool :=
  match prefix, s with
  | EmptyString, _ => true
  | String _ _, EmptyString => false
  | String c prefix', String d s' => Ascii.eqb c d && startswith prefix' s'
  end.

(** [needle in hay] for strings. *)
Fixpoint contains (needle hay : string) : bool :=
  startswith needle hay ||
  match hay with
  | EmptyString => false
  | String _ hay' => contains needle hay'
  end.

(** White space of [str.strip()] in the ASCII range. *)
Definition is_space (c : ascii) : bool :=
  let n := nat_of_ascii c in
  ((9 <=? n)%nat && (n <=? 13)%nat) || ((28 <=? n)%nat && (n <=? 32)%nat).

Fixpoint lstrip (s : string) : string :=
  match s with
  | EmptyString => EmptyString
  | String c s' => if is_space c then lstrip s' else s
  end.

Fixpoint rstrip (s : string) : string :=
  match s with
  | EmptyString => EmptyString
  | String c s' =>
      match rstrip s' with
      | EmptyString => if is_space c then EmptyString else String c EmptyString
      | r => String c r
      end
  end.

(** [s.strip()] *)
Definition strip (s : string) : string := rstrip (lstrip s).

(** [bool(s)] for a string. *)
Definition str_truthy (s : string) : bool :=
  match s with
  | EmptyString => false
  | _ => true
  end.

(** [sep.join(parts)] *)
Fixpoint join (sep : string) (parts : list string) : string :=
  match parts with
  | [] => ""
  | [p] => p
  | p :: ps => p +:+ sep +:+ join sep ps
  end.

Fixpoint zeros (n : nat) : string :=
  match n with
  | O => ""
  | S n' => String "0" (zeros n')
  end.

Definition zfill (width : nat) (digits : string) : string :=
  zeros (width - String.length digits) +:+ digits.

(** [f"{n:0wd}"]: decimal, zero-padded to [width], the sign counted in
    the width. *)
Definition fmt_0d (width : nat) (n : Z) : string :=
  if n <? 0 then "-" +:+ zfill (width - 1) (pretty (- n))
  else zfill width (pretty n).

(** The line feed of the f-strings. *)
Definition nl : string := String (ascii_of_nat 10) EmptyString.

(** [str(n)] for an integer. *)
Definition str_int (n : Z) : string := pretty n.

(** *** [sorted(l, key=key)] with float keys

    A stable sort that, like CPython's, compares keys with [<] only:
    insertion from the right, each element placed before the first one
    that is not smaller.  On keys that are numbers [<] is a strict weak
    order and every stable sort returns the same list, CPython's too.  A
    NaN key compares false with every key, and the list CPython returns
    then depends on the comparisons its merge sort happens to make, which
    this function does not follow: a statement about the order or the
    positions of the sorted list is made for keys that are [numeric]. *)

Section Sorted.
Context {A : Type} (key : A -> float).

Fixpoint insort (x : A) (l : list A) : list A :=
  match l with
  | [] => [x]
  | y :: l' => if flt (key y) (key x) then y :: insort x l' else x :: l
  end.

Definition sorted (l : list A) : list A := foldr insort [] l.

(** [a] may stand before [b] in the result: [b]'s key is not smaller. *)
Definition key_le (a b : A) : Prop := flt (key b) (key a) = false.

(** The key of [x] is a number. *)
Definition numeric (x : A) : Prop := is_nan (key x) = false.
End Sorted.

(** A [for] loop whose body may raise: the loop variables are threaded
    through [body], the first exception ends the loop. *)
Fixpoint for_each {S A : Type} (body : S -> A -> result S) (l : list A) (st : S)
    : result S :=
  match l with
  | [] => Ok st
  | x :: l' => st' ← body st x; for_each body l' st'
  end.

(** [range(a, b)] *)
Definition range (a b : nat) : list nat := seq a (b - a).

(** [enumerate(l, start)] *)
Fixpoint enumerate {A : Type} (start : nat) (l : list A) : list (nat * A) :=
  match l with
  | [] => []
  | x :: l' => (start, x) :: enumerate (S start) l'
  end.

End Py.

(** ** [streamlit/transcription_dashboard.py] *)

Module Dashboard.
Import Py.

(** A speaker segment, as parsed from the [speakers] list of the
    [TRANSCRIPT_WITH_SPEAKERS] JSON.  [is_match] and [context_group] are
    the keys added by [find_matching_segments_with_context]. *)
Record Segment : Type := {
  speaker : option string;
  text : option string;
  start_time : option float;
  end_time : option float;
  duration : option float;
  is_match : option bool;
  context_group : option nat
}.

Definition zero : float := S754_zero false.

(** [segment.get('speaker', 'Unknown')] and the like. *)
Definition get_speaker (segment : Segment) : string := default "Unknown" (speaker segment).
Definition get_text (segment : Segment) : string := default "" (text segment).
Definition get_start_time (segment : Segment) : float := default zero (start_time segment).
Definition get_end_time (segment : Segment) : float := default zero (end_time segment).
Definition get_is_match (segment : Segment) : bool := default false (is_match segment).

(** [sorted(segments, key=lambda x: x.get('start_time', 0))] *)
Definition sorted_by_start_time (segments : list Segment) : list Segment :=
  sorted get_start_time segments.

(** *** [find_matching_segments_with_context] *)

(** Lines 235-239: the indices of the segments whose text contains the
    search term, both lower-cased. *)
Definition matching_indices (sorted_segments : list Segment) (search_term : string)
    : list nat :=
  fold_left
    (fun matching_indices '(i, segment) =>
       let text := lower (get_text segment) in
       if contains (lower search_term) text then matching_indices ++ [i]
       else matching_indices)
    (enumerate 0 sorted_segments) [].

(** [segment = sorted_segments[i].copy()] followed by the two
    assignments of lines 257-258. *)
Definition tag (segment : Segment) (i match_idx : nat) : Segment :=
  {| speaker := speaker segment;
     text := text segment;
     start_time := start_time segment;
     end_time := end_time segment;
     duration := duration segment;
     is_match := Some (Nat.eqb i match_idx);
     context_group := Some match_idx |}.

(** The state of the extraction loop: [context_segments] and
    [added_indices]. *)
Definition context_state : Type := list Segment * gset nat.

(** Lines 255-260: the body of the inner loop.  The index is always in
    range (it comes from [range(start_idx, end_idx)] with
    [end_idx <= len(sorted_segments)]), so the lookup cannot fail. *)
Definition add_index (sorted_segments : list Segment) (match_idx : nat)
    (st : context_state) (i : nat) : context_state :=
  let '(context_segments, added_indices) := st in
  if decide (i ∈ added_indices) then st
  else match sorted_segments !! i with
       | Some segment =>
           (context_segments ++ [tag segment i match_idx], {[i]} ∪ added_indices)
       | None => st
       end.

Definition start_idx (match_idx context_size : nat) : nat :=
  Z.to_nat (Z.max 0 (Z.of_nat match_idx - Z.of_nat context_size)).

Definition end_idx (len match_idx context_size : nat) : nat :=
  Z.to_nat (Z.min (Z.of_nat len) (Z.of_nat match_idx + Z.of_nat context_size + 1)).

(** Lines 248-260: the body of the outer loop. *)
Definition add_window (sorted_segments : list Segment) (context_size : nat)
    (st : context_state) (match_idx : nat) : context_state :=
  fold_left (add_index sorted_segments match_idx)
    (range (start_idx match_idx context_size)
           (end_idx (length sorted_segments) match_idx context_size))
    st.

Definition extract_context (sorted_segments : list Segment) (matching : list nat)
    (context_size : nat) : context_state :=
  fold_left (add_window sorted_segments context_size) matching ([], ∅).

Definition find_matching_segments_with_context (speaker_segments : list Segment)
    (search_term : string) (context_size : nat) : list Segment :=
  match speaker_segments, search_term with
  | [], _ | _, EmptyString => []
  | _, _ =>
      let sorted_segments := sorted_by_start_time speaker_segments in
      match matching_indices sorted_segments search_term with
      | [] => []
      | matching =>
          let '(context_segments, _) :=
            extract_context sorted_segments matching context_size in
          sorted_by_start_time context_segments
      end
  end.

(** *** The grouping loop of [display_speaker_transcript] (lines 409-451) *)

Module display_speaker_transcript.

(** The loop variables; [None] is Python's [None]. *)
Record state : Type := {
  grouped_segments : list Segment;
  current_speaker : option string;
  current_text : string;
  current_start : option float;
  current_end : option float
}.

Definition init : state :=
  {| grouped_segments := [];
     current_speaker := None;
     current_text := "";
     current_start := None;
     current_end := None |}.

(** [speaker == current_speaker and current_end and
     abs(start_time - current_end) < 2] *)
Definition same_group (st : state) (speaker : string) (start_time : float) : bool :=
  match current_speaker st, current_end st with
  | Some cs, Some ce =>
      String.eqb speaker cs && float_truthy ce
      && flt (fabs (fsub start_time ce)) (of_int 2)
  | _, _ => false
  end.

(** The dictionary appended to [grouped_segments]. *)
Definition group_of (st : state) : Segment :=
  {| speaker := current_speaker st;
     text := Some (current_text st);
     start_time := current_start st;
     end_time := current_end st;
     duration := None;
     is_match := None;
     context_group := None |}.

(** [if current_speaker is not None: grouped_segments.append({...})] *)
Definition flush (st : state) : list Segment :=
  match current_speaker st with
  | Some _ => grouped_segments st ++ [group_of st]
  | None => grouped_segments st
  end.

Definition step (st : state) (segment : Segment) : state :=
  let speaker := get_speaker segment in
  let text := strip (get_text segment) in
  let start_time := get_start_time segment in
  let end_time := get_end_time segment in
  if same_group st speaker start_time then
    {| grouped_segments := grouped_segments st;
       current_speaker := current_speaker st;
       current_text := current_text st +:+ " " +:+ text;
       current_start := current_start st;
       current_end := Some end_time |}
  else
    {| grouped_segments := flush st;
       current_speaker := Some speaker;
       current_text := text;
       current_start := Some start_time;
       current_end := Some end_time |}.

(** The value of [grouped_segments] when the display loop starts. *)
Definition grouped (speaker_segments : list Segment) : list Segment :=
  let sorted_segments := sorted_by_start_time speaker_segments in
  flush (fold_left step sorted_segments init).

End display_speaker_transcript.

(** *** The grouping loop of [display_search_result_with_speakers]
    (lines 280-333); the segments are taken in the order given. *)

Module display_search_result_with_speakers.

Record state : Type := {
  grouped_segments : list Segment;
  current_speaker : option string;
  current_text : string;
  current_start : option float;
  current_end : option float;
  current_is_match : bool;
  current_context_group : option nat
}.

Definition init : state :=
  {| grouped_segments := [];
     current_speaker := None;
     current_text := "";
     current_start := None;
     current_end := None;
     current_is_match := false;
     current_context_group := None |}.

Definition same_group (st : state) (speaker : string) (start_time : float)
    (is_match : bool) (context_group : option nat) : bool :=
  match current_speaker st, current_end st with
  | Some cs, Some ce =>
      String.eqb speaker cs && float_truthy ce
      && flt (fabs (fsub start_time ce)) (of_int 2)
      && Bool.eqb is_match (current_is_match st)
      && bool_decide (context_group = current_context_group st)
  | _, _ => false
  end.

Definition group_of (st : state) : Segment :=
  {| speaker := current_speaker st;
     text := Some (current_text st);
     start_time := current_start st;
     end_time := current_end st;
     duration := None;
     is_match := Some (current_is_match st);
     context_group := current_context_group st |}.

Definition flush (st : state) : list Segment :=
  match current_speaker st with
  | Some _ => grouped_segments st ++ [group_of st]
  | None => grouped_segments st
  end.

Definition step (st : state) (segment : Segment) : state :=
  let speaker := get_speaker segment in
  let text := strip (get_text segment) in
  let start_time := get_start_time segment in
  let end_time := get_end_time segment in
  let is_match := get_is_match segment in
  let context_group := context_group segment in
  if same_group st speaker start_time is_match context_group then
    {| grouped_segments := grouped_segments st;
       current_speaker := current_speaker st;
       current_text := current_text st +:+ " " +:+ text;
       current_start := current_start st;
       current_end := Some end_time;
       current_is_match := current_is_match st;
       current_context_group := current_context_group st |}
  else
    {| grouped_segments := flush st;
       current_speaker := Some speaker;
       current_text := text;
       current_start := Some start_time;
       current_end := Some end_time;
       current_is_match := is_match;
       current_context_group := context_group |}.

Definition grouped (speaker_segments : list Segment) : list Segment :=
  flush (fold_left step speaker_segments init).

End display_search_result_with_speakers.

(** *** Export converters *)

(** The [file_info] dictionary built by the callers. *)
Record FileInfo : Type := {
  filename : option string;
  language : option string;
  file_duration : option float;
  speaker_count : option Z
}.

(** [if file_info:] holds for a dictionary with at least one key. *)
Definition file_info_truthy (file_info : option FileInfo) : bool :=
  match file_info with
  | None => false
  | Some d =>
      bool_decide (is_Some (filename d)) || bool_decide (is_Some (language d))
      || bool_decide (is_Some (file_duration d))
      || bool_decide (is_Some (speaker_count d))
  end.

(** A cell of a data-frame row, and a row as the ordered dictionary it
    is built from. *)
Inductive Cell : Type :=
| CInt (n : Z)
| CFloat (x : float)
| CStr (s : string).

Definition Row : Type := list (string * Cell).
Definition DataFrame : Type := list Row.

(** [f"{mins:02d}:{secs:02d}"] with [mins, secs = divmod(int(t), 60)] *)
Definition mm_ss (t : float) : result string :=
  n ← int t;
  mret (fmt_0d 2 (n / 60) +:+ ":" +:+ fmt_0d 2 (n mod 60)).

(** Lines 726-736 (and 771-781): the [HH:MM:SS,mmm] time stamp of one
    time value. *)
Definition srt_timestamp (t : float) : result string :=
  n ← int t;
  let hours := n / 3600 in
  let remainder := n mod 3600 in
  let minutes := remainder / 60 in
  let seconds := remainder mod 60 in
  milliseconds ← int (fmul (fsub t (of_int n)) (of_int 1000));
  mret (fmt_0d 2 hours +:+ ":" +:+ fmt_0d 2 minutes +:+ ":" +:+ fmt_0d 2 seconds
        +:+ "," +:+ fmt_0d 3 milliseconds).

(** [f"{number}\n{start_timestamp} --> {end_timestamp}\n{subtitle_text}\n"] *)
Definition srt_entry (number : Z) (start_timestamp end_timestamp subtitle_text : string)
    : string :=
  str_int number +:+ nl +:+ start_timestamp +:+ " --> " +:+ end_timestamp +:+ nl
  +:+ subtitle_text +:+ nl.

(** Lines 739-742. *)
Definition speaker_subtitle_text (include_speakers : bool) (speaker text : string)
    : string :=
  if include_speakers && negb (String.eqb speaker "Unknown")
  then speaker +:+ ": " +:+ text
  else text.

(** Lines 784-793. *)
Definition search_subtitle_text (include_speakers : bool) (speaker text : string)
    (is_match : bool) : string :=
  if include_speakers && negb (String.eqb speaker "Unknown") then
    if is_match then speaker +:+ " [MATCH]: " +:+ text
    else speaker +:+ ": " +:+ text
  else
    if is_match then "[MATCH]: " +:+ text
    else text.

(** Lines 717-746: the body of the loop over
    [enumerate(sorted_segments, 1)]; the state is [srt_content]. *)
Definition speaker_srt_step (include_speakers : bool) (srt_content : list string)
    (item : nat * Segment) : result (list string) :=
  let '(i, segment) := item in
  let speaker := get_speaker segment in
  let text := strip (get_text segment) in
  let start_time := get_start_time segment in
  let end_time := get_end_time segment in
  if negb (str_truthy text) then mret srt_content
  else
    start_timestamp ← srt_timestamp start_time;
    end_timestamp ← srt_timestamp end_time;
    let subtitle_text := speaker_subtitle_text include_speakers speaker text in
    mret (srt_content
          ++ [srt_entry (Z.of_nat i) start_timestamp end_timestamp subtitle_text]).

Definition convert_speaker_segments_to_srt (speaker_segments : option (list Segment))
    (file_info : option FileInfo) (include_speakers : bool) : result (option string) :=
  match speaker_segments with
  | None | Some [] => mret None
  | Some speaker_segments =>
      let sorted_segments := sorted_by_start_time speaker_segments in
      srt_content ←
        for_each (speaker_srt_step include_speakers) (enumerate 1 sorted_segments) [];
      mret (Some (join nl srt_content))
  end.

(** Lines 761-798: the body of the loop; the state is [srt_content] and
    [subtitle_number]. *)
Definition search_srt_step (include_speakers : bool) (st : list string * Z)
    (segment : Segment) : result (list string * Z) :=
  let '(srt_content, subtitle_number) := st in
  let speaker := get_speaker segment in
  let text := strip (get_text segment) in
  let start_time := get_start_time segment in
  let end_time := get_end_time segment in
  let is_match := get_is_match segment in
  if negb (str_truthy text) then mret st
  else
    start_timestamp ← srt_timestamp start_time;
    end_timestamp ← srt_timestamp end_time;
    let subtitle_text := search_subtitle_text include_speakers speaker text is_match in
    mret (srt_content
          ++ [srt_entry subtitle_number start_timestamp end_timestamp subtitle_text],
          subtitle_number + 1).

Definition convert_search_results_to_srt (context_segments : option (list Segment))
    (file_info : option FileInfo) (search_term : string) (include_speakers : bool)
    : result (option string) :=
  match context_segments with
  | None | Some [] => mret None
  | Some context_segments =>
      let sorted_segments := sorted_by_start_time context_segments in
      st ← for_each (search_srt_step include_speakers) sorted_segments ([], 1);
      mret (Some (join nl (fst st)))
  end.

(** The tabular converters build a data frame.  Three library calls are
    left open: [round(x, 2)], the format [f"{x:.1f}"] and the export
    date [datetime.now().strftime(...)]. *)
Section Tabular.
Variable round2 : float -> float.
Variable fmt_1f : float -> string.
Variable export_date : string.

(** Lines 484-506. *)
Definition speaker_csv_step (csv_data : DataFrame) (item : nat * Segment)
    : result DataFrame :=
  let '(i, segment) := item in
  let speaker := get_speaker segment in
  let text := strip (get_text segment) in
  let start_time := get_start_time segment in
  let end_time := get_end_time segment in
  let duration := default (fsub end_time start_time) (duration segment) in
  start_time_formatted ← mm_ss start_time;
  end_time_formatted ← mm_ss end_time;
  mret (csv_data ++
        [[("Segment", CInt (Z.of_nat i));
          ("Speaker", CStr speaker);
          ("Start_Time", CStr start_time_formatted);
          ("End_Time", CStr end_time_formatted);
          ("Start_Seconds", CFloat start_time);
          ("End_Seconds", CFloat end_time);
          ("Duration_Seconds", CFloat (round2 duration));
          ("Text", CStr text)]]).

Definition metadata_row (columns : list string) (label value : string) : Row :=
  match columns with
  | c0 :: c1 :: c2 :: rest =>
      (c0, CStr "METADATA") :: (c1, CStr label) :: (c2, CStr value)
      :: map (fun c => (c, CStr "")) rest
  | _ => []
  end.

Definition separator_row (columns : list string) : Row :=
  map (fun c => (c, CStr "---")) columns.

Definition speaker_columns : list string :=
  ["Segment"; "Speaker"; "Start_Time"; "End_Time"; "Start_Seconds"; "End_Seconds";
   "Duration_Seconds"; "Text"].

Definition search_columns : list string :=
  ["Segment"; "Speaker"; "Start_Time"; "End_Time"; "Start_Seconds"; "End_Seconds";
   "Duration_Seconds"; "Is_Match"; "Match_Group"; "Text"].

(** The rows common to both headers: file, language, duration, date. *)
Definition file_rows (columns : list string) (d : FileInfo) : list Row :=
  [metadata_row columns "File" (default "Unknown" (filename d));
   metadata_row columns "Language" (default "Unknown" (language d));
   metadata_row columns "Duration"
     (fmt_1f (default zero (file_duration d)) +:+ "s");
   metadata_row columns "Export_Date" export_date].

Definition convert_speaker_segments_to_csv (speaker_segments : option (list Segment))
    (file_info : option FileInfo) : result (option DataFrame) :=
  match speaker_segments with
  | None | Some [] => mret None
  | Some speaker_segments =>
      let sorted_segments := sorted_by_start_time speaker_segments in
      df ← for_each speaker_csv_step (enumerate 1 sorted_segments) [];
      match file_info with
      | Some d =>
          if file_info_truthy file_info then
            mret (Some (file_rows speaker_columns d
                        ++ [separator_row speaker_columns] ++ df))
          else mret (Some df)
      | None => mret (Some df)
      end
  end.

(** Lines 594-620. *)
Definition search_csv_step (csv_data : DataFrame) (item : nat * Segment)
    : result DataFrame :=
  let '(i, segment) := item in
  let speaker := get_speaker segment in
  let text := strip (get_text segment) in
  let start_time := get_start_time segment in
  let end_time := get_end_time segment in
  let duration := default (fsub end_time start_time) (duration segment) in
  let is_match := get_is_match segment in
  let context_group := default 0%nat (context_group segment) in
  start_time_formatted ← mm_ss start_time;
  end_time_formatted ← mm_ss end_time;
  mret (csv_data ++
        [[("Segment", CInt (Z.of_nat i));
          ("Speaker", CStr speaker);
          ("Start_Time", CStr start_time_formatted);
          ("End_Time", CStr end_time_formatted);
          ("Start_Seconds", CFloat start_time);
          ("End_Seconds", CFloat end_time);
          ("Duration_Seconds", CFloat (round2 duration));
          ("Is_Match", CStr (if is_match then "YES" else "CONTEXT"));
          ("Match_Group", CInt (Z.of_nat context_group + 1));
          ("Text", CStr text)]]).

Definition convert_search_results_to_csv (context_segments : option (list Segment))
    (file_info : option FileInfo) (search_term : string)
    : result (option DataFrame) :=
  match context_segments with
  | None | Some [] => mret None
  | Some context_segments =>
      let sorted_segments := sorted_by_start_time context_segments in
      df ← for_each search_csv_step (enumerate 1 sorted_segments) [];
      match file_info with
      | Some d =>
          if file_info_truthy file_info then
            mret (Some (metadata_row search_columns "Search_Term" search_term
                        :: file_rows search_columns d
                        ++ [separator_row search_columns] ++ df))
          else mret (Some df)
      | None => mret (Some df)
      end
  end.
End Tabular.

End Dashboard.

(** ** [av.uploader/upload_av_files.py] *)

Module Uploader.
Import Py.

(** A row of [LIST @stage]: [(name, size, md5, last_modified)]. *)
Definition StageRow : Type := list string.

(** What the calls on the cursor of this run do: each may raise. *)
Record Cursor : Type := {
  execute : string -> result unit;
  fetchall : result (list StageRow);
  close : result unit
}.

Record Connection : Type := {
  cursor : result Cursor
}.

(** The lines printed by [get_stage_files]. *)
Inductive message : Type :=
| Checking (stage_name : string)
| Found (count : nat)
| Warning (e : exn)
| AssumingEmpty.

(** [row[0]] *)
Definition first_cell (row : StageRow) : result string :=
  match row with
  | name :: _ => Ok name
  | [] => Raise (IndexError "tuple index out of range")
  end.

(** [path.split('/')[-1]]: what follows the last slash. *)
Fixpoint last_component (current path : string) : string :=
  match path with
  | EmptyString => current
  | String c path' =>
      if Ascii.eqb c "/" then last_component path' path'
      else last_component current path'
  end.

Definition basename (path : string) : string := last_component path path.

(** Lines 105-111: the body of the loop over [cursor.fetchall()]. *)
Definition add_row (stage_files : gset string) (row : StageRow) : result (gset string) :=
  file_path ← first_cell row;
  let filename := basename file_path in
  mret ({[filename]} ∪ stage_files).

(** Lines 101-115: the body of the [try]. *)
Definition list_stage (conn : Connection) (stage_name : string)
    : result (gset string * list message) :=
  cur ← cursor conn;
  _ ← execute cur ("LIST @" +:+ stage_name);
  rows ← fetchall cur;
  stage_files ← for_each add_row rows ∅;
  _ ← close cur;
  mret (stage_files, [Found (size stage_files)]).

(** [get_stage_files]: the set of file names and the lines printed. *)
Definition get_stage_files (conn : Connection) (stage_name : string)
    : gset string * list message :=
  match list_stage conn stage_name with
  | Ok (stage_files, printed) => (stage_files, Checking stage_name :: printed)
  | Raise e => (∅, [Checking stage_name; Warning e; AssumingEmpty])
  end.

(** Lines 215-222 of [upload_av_files]: the upload plan,
    [(files_to_upload, already_uploaded)]; a local file is a path and
    [local_file.name] its last component. *)
Definition classify (stage_files : gset string) (st : list string * list string)
    (local_file : string) : list string * list string :=
  let '(files_to_upload, already_uploaded) := st in
  if decide (basename local_file ∉ stage_files)
  then (files_to_upload ++ [local_file], already_uploaded)
  else (files_to_upload, already_uploaded ++ [local_file]).

Definition upload_plan (local_files : list string) (stage_files : gset string)
    : list string * list string :=
  fold_left (classify stage_files) local_files ([], []).

(** *** [upload_file] and the upload loop *)

(** [True], ['SKIPPED'] and [False], the three values of [upload_file]. *)
Inductive outcome : Type :=
| Uploaded
| Skipped
| Failed.

(** What the calls on the cursor of one PUT do. *)
Record PutCursor : Type := {
  put_execute : string -> result unit;
  fetchone : result (option StageRow);
  put_close : result unit
}.

Definition put_sql (abs_path stage_name : string) : string :=
  "PUT file://" +:+ abs_path +:+ " @" +:+ stage_name
  +:+ " AUTO_COMPRESS=FALSE OVERWRITE=FALSE".

(** Lines 179-184: the seventh column of the reply decides; no reply, or
    an empty one, is a failure. *)
Definition put_status (reply : option StageRow) : result outcome :=
  match reply with
  | None | Some [] => Ok Failed
  | Some row =>
      match row !! 6%nat with
      | None => Raise (IndexError "tuple index out of range")
      | Some status =>
          if contains "UPLOADED" (upper status) then Ok Uploaded
          else if contains "SKIPPED" (upper status) then Ok Skipped
          else Ok Failed
      end
  end.

(** Lines 166-184: the body of the [try]. *)
Definition try_upload (cur : result PutCursor) (abs_path stage_name : string)
    : result outcome :=
  c ← cur;
  _ ← put_execute c (put_sql abs_path stage_name);
  reply ← fetchone c;
  _ ← put_close c;
  put_status reply.

Definition upload_file (cur : result PutCursor) (abs_path stage_name : string)
    : outcome :=
  match try_upload cur abs_path stage_name with
  | Ok o => o
  | Raise _ => Failed
  end.

(** What the run meets after the plan: the size of a file
    ([path.stat().st_size]), [os.path.abspath], the cursor that
    [conn.cursor()] returns for the upload numbered [i], the cursor of the
    final listing, and [conn.close()]. *)
Record Transfer : Type := {
  stat_size : string -> result Z;
  abspath : string -> string;
  put_cursor : nat -> result PutCursor;
  relist : result Cursor;
  conn_close : result unit
}.

(** [uploaded_count], [skipped_count] and [failed_count]. *)
Definition counts : Type := nat * nat * nat.

Definition count (st : counts) (o : outcome) : counts :=
  let '(uploaded_count, skipped_count, failed_count) := st in
  match o with
  | Uploaded => (S uploaded_count, skipped_count, failed_count)
  | Skipped => (uploaded_count, S skipped_count, failed_count)
  | Failed => (uploaded_count, skipped_count, S failed_count)
  end.

(** Lines 236-239. *)
Definition total_upload_size (env : Transfer) (files_to_upload : list string)
    : result Z :=
  for_each (fun total_size file_path =>
              file_size ← stat_size env file_path; mret (total_size + file_size))
    files_to_upload 0.

(** Lines 248-262: the body of the upload loop. *)
Definition upload_step (env : Transfer) (stage_name : string) (st : counts)
    (item : nat * string) : result counts :=
  let '(i, file_path) := item in
  _ ← stat_size env file_path;
  mret (count st (upload_file (put_cursor env i) (abspath env file_path) stage_name)).

(** Lines 236-262: sizes, then the uploads. *)
Definition upload_all (env : Transfer) (stage_name : string)
    (files_to_upload : list string) : result counts :=
  _ ← total_upload_size env files_to_upload;
  for_each (upload_step env stage_name) (enumerate 1 files_to_upload)
    (0%nat, 0%nat, 0%nat).

(** Lines 274-280: the number of rows of a second listing. *)
Definition stage_total (cur : result Cursor) (stage_name : string) : result nat :=
  c ← cur;
  _ ← execute c ("LIST @" +:+ stage_name);
  rows ← fetchall c;
  _ ← close c;
  mret (length rows).

(** How a run of [upload_av_files] ends when nothing is raised: no local
    file, nothing left to upload, or the three counts and, after at least
    one upload, the number of files in the stage. *)
Inductive report : Type :=
| NoLocalFiles
| AllUploaded
| Summary (c : counts) (total_in_stage : option nat).

(** Lines 205-281: the body of the [try], for the local files found. *)
Definition upload_body (conn : Connection) (env : Transfer) (stage_name : string)
    (local_files : list string) : result report :=
  match local_files with
  | [] => mret NoLocalFiles
  | _ =>
      let stage_files := fst (get_stage_files conn stage_name) in
      match fst (upload_plan local_files stage_files) with
      | [] => mret AllUploaded
      | files_to_upload =>
          c ← upload_all env stage_name files_to_upload;
          if (0 <? fst (fst c))%nat then
            total_in_stage ← stage_total (relist env) stage_name;
            mret (Summary c (Some total_in_stage))
          else mret (Summary c None)
      end
  end.

(** The [try] with its [finally: conn.close()]: an exception of the
    closing replaces the outcome of the body. *)
Definition upload_av_files (conn : Connection) (env : Transfer) (stage_name : string)
    (local_files : list string) : result report :=
  let outcome := upload_body conn env stage_name local_files in
  match conn_close env with
  | Ok _ => outcome
  | Raise e => Raise e
  end.

End Uploader.

(** ** Vocabulary of the statements *)

Module Spec.
Import Py Dashboard.

(** [needle] occurs in [hay]. *)
Definition substring_of (needle hay : string) : Prop :=
  exists pre post, hay = pre +:+ needle +:+ post.

(** The start time is a number, as the data model has it. *)
Definition numeric_start : Segment -> Prop := numeric get_start_time.

(** [a] does not start after [b]. *)
Definition start_le : Segment -> Segment -> Prop := key_le get_start_time.

(** A segment with the four keys of the transcript JSON. *)
Definition segment (who what : string) (from to : float) : Segment :=
  {| speaker := Some who; text := Some what;
     start_time := Some from; end_time := Some to;
     duration := None; is_match := None; context_group := None |}.

(** *** Merging of adjacent segments *)

Definition stripped_text (s : Segment) : string := strip (get_text s).

Definition same_speaker (a b : Segment) : bool :=
  String.eqb (get_speaker b) (get_speaker a).

(** The next segment starts less than two seconds from the end of the
    previous one, on either side. *)
Definition close_in_time (a b : Segment) : bool :=
  flt (fabs (fsub (get_start_time b) (get_end_time a))) (of_int 2).

Definition same_tags (a b : Segment) : bool :=
  Bool.eqb (get_is_match b) (get_is_match a)
  && bool_decide (context_group b = context_group a).

(** What the two loops test between a segment [a] and the next [b]. *)
Definition merges (a b : Segment) : bool :=
  same_speaker a b && float_truthy (get_end_time a) && close_in_time a b.

Definition merges_search (a b : Segment) : bool :=
  same_speaker a b && float_truthy (get_end_time a) && close_in_time a b
  && same_tags a b.

(** The criterion without the test of [current_end]. *)
Definition near (a b : Segment) : bool := same_speaker a b && close_in_time a b.

Definition near_search (a b : Segment) : bool :=
  same_speaker a b && close_in_time a b && same_tags a b.

(** The criterion in the words of the specification: same speaker and
    a gap, next start minus previous end, below two seconds. *)
Definition spec_merge_criterion (a b : Segment) : bool :=
  same_speaker a b && flt (fsub (get_start_time b) (get_end_time a)) (of_int 2).

(** A run is a first segment and the segments merged into it. *)
Definition run : Type := Segment * list Segment.

Definition run_last (r : run) : Segment := List.last (snd r) (fst r).

(** The maximal runs of a list: a segment joins the run of its successor
    exactly when the criterion holds between the two. *)
Fixpoint runs (crit : Segment -> Segment -> bool) (l : list Segment) : list run :=
  match l with
  | [] => []
  | a :: l' =>
      match runs crit l' with
      | (b, r) :: rs => if crit a b then (a, b :: r) :: rs else (a, []) :: (b, r) :: rs
      | [] => [(a, [])]
      end
  end.

(** Every segment of the run satisfies the criterion with the next. *)
Fixpoint chain (crit : Segment -> Segment -> bool) (a : Segment) (rest : list Segment)
    : Prop :=
  match rest with
  | [] => True
  | b :: rest' => crit a b = true /\ chain crit b rest'
  end.

(** Runs as the loops leave them: each is a chain, and the criterion
    fails between the last segment of a run and the first of the next. *)
Fixpoint separated (crit : Segment -> Segment -> bool) (rs : list run) : Prop :=
  match rs with
  | [] => True
  | r :: rs' =>
      chain crit (fst r) (snd r)
      /\ match rs' with
         | r' :: _ => crit (run_last r) (fst r') = false
         | [] => True
         end
      /\ separated crit rs'
  end.

(** A text that [strip] leaves alone and that is not empty. *)
Definition solid (t : string) : Prop := t <> "" /\ lstrip t = t /\ rstrip t = t.

(** The segment a run is merged into: first speaker and start, the
    stripped texts joined by one space, the end of the last segment. *)
Definition fuse (r : run) : Segment :=
  {| speaker := Some (get_speaker (fst r));
     text := Some (join " " (stripped_text <$> (fst r :: snd r)));
     start_time := Some (get_start_time (fst r));
     end_time := Some (get_end_time (run_last r));
     duration := None; is_match := None; context_group := None |}.

Definition fuse_search (r : run) : Segment :=
  {| speaker := Some (get_speaker (fst r));
     text := Some (join " " (stripped_text <$> (fst r :: snd r)));
     start_time := Some (get_start_time (fst r));
     end_time := Some (get_end_time (run_last r));
     duration := None;
     is_match := Some (get_is_match (fst r));
     context_group := context_group (fst r) |}.

(** The loop variables of [display_speaker_transcript] once the groups
    [done] are closed and the run [r] is being accumulated. *)
Definition transcript_state (done : list Segment) (r : run)
    : display_speaker_transcript.state :=
  {| display_speaker_transcript.grouped_segments := done;
     display_speaker_transcript.current_speaker := Some (get_speaker (fst r));
     display_speaker_transcript.current_text :=
       join " " (stripped_text <$> (fst r :: snd r));
     display_speaker_transcript.current_start := Some (get_start_time (fst r));
     display_speaker_transcript.current_end := Some (get_end_time (run_last r)) |}.

(** The same for [display_search_result_with_speakers]. *)
Definition search_state (done : list Segment) (r : run)
    : display_search_result_with_speakers.state :=
  {| display_search_result_with_speakers.grouped_segments := done;
     display_search_result_with_speakers.current_speaker := Some (get_speaker (fst r));
     display_search_result_with_speakers.current_text :=
       join " " (stripped_text <$> (fst r :: snd r));
     display_search_result_with_speakers.current_start := Some (get_start_time (fst r));
     display_search_result_with_speakers.current_end := Some (get_end_time (run_last r));
     display_search_result_with_speakers.current_is_match := get_is_match (fst r);
     display_search_result_with_speakers.current_context_group := context_group (fst r) |}.

(** The normalizer: sort by start time, then merge. *)
Definition normalize (l : list Segment) : list Segment :=
  display_speaker_transcript.grouped l.

(** *** Context windows *)

(** Index [i] lies in the window of the match at [m]. *)
Definition in_window (len context_size m i : nat) : Prop :=
  (start_idx m context_size <= i < end_idx len m context_size)%nat.

(** The output segment made from index [i] while the window of the match
    at [m] is added. *)
Definition tagged_at (sorted_segments : list Segment) (p : nat * nat) : option Segment :=
  (fun s => tag s (fst p) (snd p)) <$> sorted_segments !! fst p.

(** The state of the extraction loop holds the segments made from the
    pairs [prov] of an index and the match whose window brought it in,
    each index once. *)
Definition provenance (sorted_segments : list Segment) (st : context_state)
    (prov : list (nat * nat)) : Prop :=
  Some <$> fst st = tagged_at sorted_segments <$> prov
  /\ snd st = list_to_set (fst <$> prov)
  /\ NoDup (fst <$> prov).

(** *** Subtitle entries *)

Definition has_text (s : Segment) : Prop := str_truthy (stripped_text s) = true.

Global Instance has_text_dec s : Decision (has_text s).
Proof. unfold has_text. apply _. Defined.

(** The time stamp of a time that can be rendered. *)
Definition stamp (t : float) : string :=
  match srt_timestamp t with
  | Ok s => s
  | Raise _ => ""
  end.


(** Both times of the segment convert to integers. *)
Definition renderable (s : Segment) : Prop :=
  (exists a, srt_timestamp (get_start_time s) = Ok a)
  /\ (exists b, srt_timestamp (get_end_time s) = Ok b).

(** The text line of a search-result entry in the words of the
    specification: a prefix only with speaker inclusion and a known
    speaker, the bare text otherwise. *)
Definition spec_search_text (include_speakers : bool) (s : Segment) : string :=
  if include_speakers && negb (String.eqb (get_speaker s) "Unknown") then
    get_speaker s +:+ (if get_is_match s then " [MATCH]" else "") +:+ ": "
    +:+ stripped_text s
  else stripped_text s.

(** The text line as amended: without a speaker label a match still
    carries the tag. *)
Definition search_text (include_speakers : bool) (s : Segment) : string :=
  let label :=
    if include_speakers && negb (String.eqb (get_speaker s) "Unknown") then
      Some (get_speaker s +:+ (if get_is_match s then " [MATCH]" else ""))
    else if get_is_match s then Some "[MATCH]"
    else None in
  match label with
  | Some l => l +:+ ": " +:+ stripped_text s
  | None => stripped_text s
  end.

(** Entries numbered [number], [number + 1], ... for the segments of [l]
    in order, with the text line [line]. *)
Fixpoint numbered (line : Segment -> string) (number : Z) (l : list Segment)
    : list string :=
  match l with
  | [] => []
  | s :: l' =>
      srt_entry number (stamp (get_start_time s)) (stamp (get_end_time s)) (line s)
      :: numbered line (number + 1) l'
  end.

(** The [MM:SS] label of a time that converts to an integer. *)
Definition time_label (t : float) : string :=
  match mm_ss t with
  | Ok s => s
  | Raise _ => ""
  end.

(** The data row of the speaker table for the segment at position [i]. *)
Definition speaker_csv_row (round2 : float -> float) (i : nat) (s : Segment) : Row :=
  [("Segment", CInt (Z.of_nat i));
   ("Speaker", CStr (get_speaker s));
   ("Start_Time", CStr (time_label (get_start_time s)));
   ("End_Time", CStr (time_label (get_end_time s)));
   ("Start_Seconds", CFloat (get_start_time s));
   ("End_Seconds", CFloat (get_end_time s));
   ("Duration_Seconds",
    CFloat (round2 (default (fsub (get_end_time s) (get_start_time s)) (duration s))));
   ("Text", CStr (stripped_text s))].

(** The data row of the search table. *)
Definition search_csv_row (round2 : float -> float) (i : nat) (s : Segment) : Row :=
  [("Segment", CInt (Z.of_nat i));
   ("Speaker", CStr (get_speaker s));
   ("Start_Time", CStr (time_label (get_start_time s)));
   ("End_Time", CStr (time_label (get_end_time s)));
   ("Start_Seconds", CFloat (get_start_time s));
   ("End_Seconds", CFloat (get_end_time s));
   ("Duration_Seconds",
    CFloat (round2 (default (fsub (get_end_time s) (get_start_time s)) (duration s))));
   ("Is_Match", CStr (if get_is_match s then "YES" else "CONTEXT"));
   ("Match_Group", CInt (Z.of_nat (default 0%nat (context_group s)) + 1));
   ("Text", CStr (stripped_text s))].

(** Rows for the segments of [l], the first at [position]. *)
Fixpoint numbered_rows (row : nat -> Segment -> Row) (position : nat) (l : list Segment)
    : DataFrame :=
  match l with
  | [] => []
  | s :: l' => row position s :: numbered_rows row (S position) l'
  end.

(** Both times of the segment are finite numbers. *)
Definition finite_times (s : Segment) : Prop :=
  is_finite (get_start_time s) = true /\ is_finite (get_end_time s) = true.

(** The segments of a run, in order. *)
Definition run_segments (r : run) : list Segment := fst r :: snd r.

(** The text line of an entry of the speaker export. *)
Definition speaker_text (include_speakers : bool) (s : Segment) : string :=
  speaker_subtitle_text include_speakers (get_speaker s) (stripped_text s).

(** Entries numbered with the position of their segment in [l], counted
    from [position]: a segment without text has no entry and uses up a
    number. *)
Fixpoint positioned (line : Segment -> string) (position : nat) (l : list Segment)
    : list string :=
  match l with
  | [] => []
  | s :: l' =>
      (if decide (has_text s)
       then [srt_entry (Z.of_nat position) (stamp (get_start_time s))
               (stamp (get_end_time s)) (line s)]
       else [])
      ++ positioned line (S position) l'
  end.

End Spec.

(** ** Sample inputs *)

Module Sample.
Import Py Dashboard Spec.

(** Two adjacent segments that both contain the term. *)
Definition two_hits : list Segment :=
  [segment "A" "hi" (of_int 0) (of_int 1); segment "B" "hi there" (of_int 1) (of_int 2)].

(** A segment without text before one with text. *)
Definition silent_first : list Segment :=
  [segment "A" "" (of_int 0) (of_int 1); segment "B" "hello" (of_int 1) (of_int 2)].

(** A segment that starts five seconds before the previous one ends. *)
Definition long_a : Segment := segment "A" "x" (of_int 0) (of_int 10).
Definition inside_b : Segment := segment "A" "y" (of_int 5) (of_int 6).

(** A segment that ends at time zero, and the next one. *)
Definition instant_a : Segment := segment "A" "x" (of_int 0) (of_int 0).
Definition next_b : Segment := segment "A" "y" (of_int 1) (of_int 2).

(** Two near segments, the second without an end. *)
Definition zero_end_last : list Segment :=
  [segment "A" "x" (of_int 0) (of_int 1); segment "A" "y" (decimal 15 10) (of_int 0)].

(** A match whose speaker is not known. *)
Definition unknown_match : Segment :=
  {| speaker := None; text := Some "hi";
     start_time := Some (of_int 0); end_time := Some (of_int 1);
     duration := None; is_match := Some true; context_group := Some 0%nat |}.

(** A segment without text after one with text, same speaker. *)
Definition trailing_silence : list Segment :=
  [segment "A" "a" (of_int 0) (of_int 1); segment "A" "" (of_int 1) (of_int 2)].

(** The round-trip scenario of the specification. *)
Definition scenario : list Segment :=
  [segment "A" "hello" (of_int 0) (of_int 2);
   segment "A" "world" (decimal 25 10) (of_int 4);
   segment "B" "hi" (of_int 5) (of_int 6)].


(** A connection whose cursor cannot be opened. *)
Definition broken : Uploader.Connection :=
  {| Uploader.cursor := Raise (Error "connection lost") |}.

(** A segment with text whose start time is not a number. *)
Definition nan_start : Segment := segment "A" "x" S754_nan (of_int 1).

(** Segments without text. *)
Definition silent : list Segment :=
  [segment "A" "" (of_int 0) (of_int 1); segment "B" "  " (of_int 1) (of_int 2)].

(** Segments of one speaker without the [end_time] key. *)
Definition open_ended : list Segment :=
  [ {| speaker := Some "A"; text := Some "one";
       start_time := Some (of_int 0); end_time := None;
       duration := None; is_match := None; context_group := None |};
    {| speaker := Some "A"; text := Some "two";
       start_time := Some (of_int 1); end_time := None;
       duration := None; is_match := None; context_group := None |} ].

(** A cursor that lists the given rows. *)
Definition listing (rows : list Uploader.StageRow) : Uploader.Connection :=
  {| Uploader.cursor :=
       Ok {| Uploader.execute := fun _ => Ok tt;
             Uploader.fetchall := Ok rows;
             Uploader.close := Ok tt |} |}.

Definition two_rows : list Uploader.StageRow :=
  [["av_stage/2024/b.mp4"; "1024"; "d41d8"; "Mon"]; ["a.mp3"; "10"; "9e107"; "Tue"]].

Definition spoiled_rows : list Uploader.StageRow :=
  [["av_stage/b.mp4"; "1024"; "d41d8"; "Mon"]; []].

(** An upload whose every reply says UPLOADED. *)
Definition smooth : Uploader.Transfer :=
  {| Uploader.stat_size := fun _ => Ok 2048;
     Uploader.abspath := fun p => "/data/" +:+ p;
     Uploader.put_cursor := fun _ =>
       Ok {| Uploader.put_execute := fun _ => Ok tt;
             Uploader.fetchone :=
               Ok (Some ["a.mp3"; "a.mp3"; "2048"; "2048"; "NONE"; "NONE"; "UPLOADED"; ""]);
             Uploader.put_close := Ok tt |};
     Uploader.relist :=
       Ok {| Uploader.execute := fun _ => Ok tt;
             Uploader.fetchall := Ok [["av_stage/a.mp3"]; ["av_stage/c.wav"]];
             Uploader.close := Ok tt |};
     Uploader.conn_close := Ok tt |}.

(** An upload where no file can be found any more. *)
Definition vanished : Uploader.Transfer :=
  {| Uploader.stat_size := fun _ => Raise (Error "No such file or directory");
     Uploader.abspath := fun p => p;
     Uploader.put_cursor := fun _ => Raise (Error "not reached");
     Uploader.relist := Raise (Error "not reached");
     Uploader.conn_close := Ok tt |}.

End Sample.

(** * Properties *)

(** ** Facts about the built-ins *)

Import Py Dashboard Spec.

(** *** The order of the float keys *)

Lemma flt_negtrans x y z :
  is_nan y = false -> flt y x = false -> flt z y = false -> flt z x = false.
Proof.
  unfold flt, SFltb, SFcompare.
  destruct x as [[]|[]| |[] mx ex], y as [[]|[]| |[] my ey], z as [[]|[]| |[] mz ez];
    simpl; try congruence; intros _;
    change (Pos.compare_cont Eq) with Pos.compare;
    destruct (Z.compare_spec ey ex), (Z.compare_spec ez ey), (Z.compare_spec ez ex);
    try congruence; try lia; subst;
    destruct (Pos.compare_spec my mx), (Pos.compare_spec mz my), (Pos.compare_spec mz mx);
    simpl; try congruence; try lia.
Qed.

Lemma flt_asym x y : flt x y = true -> flt y x = false.
Proof.
  unfold flt, SFltb, SFcompare.
  destruct x as [[]|[]| |[] mx ex], y as [[]|[]| |[] my ey];
    simpl; try congruence;
    change (Pos.compare_cont Eq) with Pos.compare;
    destruct (Z.compare_spec ey ex), (Z.compare_spec ex ey);
    try congruence; try lia; subst;
    destruct (Pos.compare_spec my mx), (Pos.compare_spec mx my);
    simpl; try congruence; try lia.
Qed.

Section SortedFacts.
Context {A : Type} (key : A -> float).
Implicit Types (x : A) (l : list A).

Lemma insort_perm x l : insort key x l ≡ₚ x :: l.
Proof.
  induction l as [|y l IH]; simpl; [done|].
  destruct (flt (key y) (key x)); [|done].
  rewrite IH. apply Permutation_swap.
Qed.

Lemma sorted_perm l : sorted key l ≡ₚ l.
Proof.
  induction l as [|x l IH]; simpl; [done|].
  rewrite insort_perm. by rewrite IH.
Qed.

Lemma sorted_length l : length (sorted key l) = length l.
Proof. by rewrite sorted_perm. Qed.

Lemma sorted_nil_inv l : sorted key l = [] -> l = [].
Proof.
  intros H. apply Permutation_nil_r. rewrite <- H. symmetry. apply sorted_perm.
Qed.

Lemma insort_sorted x l :
  Forall (numeric key) l ->
  StronglySorted (key_le key) l -> StronglySorted (key_le key) (insort key x l).
Proof.
  intros Hnum Hs. induction Hs as [|y l Hs IH Hy]; simpl.
  - repeat constructor.
  - apply Forall_cons in Hnum as [Hny Hnum].
    destruct (flt (key y) (key x)) eqn:E.
    + constructor; [by apply IH|].
      rewrite insort_perm. constructor; [|done].
      by apply flt_asym.
    + constructor; [by constructor|].
      constructor; [done|].
      eapply Forall_impl; [exact Hy|]. intros z Hz.
      unfold key_le in *. by apply (flt_negtrans _ (key y)).
Qed.

Lemma sorted_sorted l :
  Forall (numeric key) l -> StronglySorted (key_le key) (sorted key l).
Proof.
  induction l as [|x l IH]; intros Hnum; simpl; [constructor|].
  apply Forall_cons in Hnum as [_ Hnum].
  apply insort_sorted; [|by apply IH].
  by rewrite sorted_perm.
Qed.

Lemma sorted_id l : Sorted (key_le key) l -> sorted key l = l.
Proof.
  induction 1 as [|x l Hs IH Hx]; simpl; [done|].
  rewrite IH. destruct Hx as [|y l Hxy]; simpl; [done|].
  unfold key_le in Hxy. by rewrite Hxy.
Qed.
End SortedFacts.

(** *** Strings *)

Lemma prefix_spec p s : startswith p s = true <-> exists post, s = p +:+ post.
Proof.
  revert s. induction p as [|c p IH]; intros s; simpl.
  - split; [intros _; by exists s|done].
  - destruct s as [|d s]; [split; [done|intros [? [=]]]|].
    rewrite andb_true_iff, Ascii.eqb_eq, IH. split.
    + intros [-> [post ->]]. by exists post.
    + intros [post [= -> ->]]. split; [done|by exists post].
Qed.

Lemma contains_spec needle hay : contains needle hay = true <-> substring_of needle hay.
Proof.
  unfold substring_of. induction hay as [|c hay IH]; simpl.
  - rewrite orb_false_r, prefix_spec. split.
    + intros [post H]. by exists "", post.
    + intros [[|? pre] [post H]]; [by exists post|done].
  - rewrite orb_true_iff, IH, prefix_spec. split.
    + intros [[post H]|(pre & post & H)].
      * by exists "", post.
      * exists (String c pre), post. simpl. by rewrite H.
    + intros ([|d pre] & post & H).
      * left. by exists post.
      * right. injection H as _ H. by exists pre, post.
Qed.

(** ** The match locator *)

Lemma matching_indices_loop term l k acc i :
  i ∈ fold_left
      (fun matching_indices '(i, segment) =>
         let text := lower (get_text segment) in
         if contains (lower term) text then matching_indices ++ [i]
         else matching_indices)
      (enumerate k l) acc
  <-> i ∈ acc \/ exists seg, (k <= i)%nat /\ l !! (i - k)%nat = Some seg
                  /\ contains (lower term) (lower (get_text seg)) = true.
Proof.
  revert k acc. induction l as [|s l IH]; intros k acc; simpl.
  - split; [by left|]. intros [H|(seg & _ & H & _)]; [done|]. by rewrite lookup_nil in H.
  - rewrite IH. clear IH. split.
    + intros [H|(seg & Hk & Hl & Hc)].
      * destruct (contains _ _) eqn:E; [|by left].
        apply elem_of_app in H as [H|H]; [by left|].
        apply list_elem_of_singleton in H as ->. right. exists s.
        rewrite Nat.sub_diag. done.
      * right. exists seg. split; [lia|]. split; [|done].
        replace (i - k)%nat with (S (i - S k)) by lia. done.
    + intros [H|(seg & Hk & Hl & Hc)].
      * left. destruct (contains _ _); [|done]. apply elem_of_app. by left.
      * destruct (decide (i = k)) as [->|Hne].
        -- rewrite Nat.sub_diag in Hl. simpl in Hl. injection Hl as ->.
           left. rewrite Hc. apply elem_of_app. right. by apply list_elem_of_singleton.
        -- right. exists seg. split; [lia|]. split; [|done].
           replace (i - k)%nat with (S (i - S k)) in Hl by lia. done.
Qed.

Lemma matching_indices_spec sorted_segments term i :
  i ∈ matching_indices sorted_segments term
  <-> exists seg, sorted_segments !! i = Some seg
        /\ substring_of (lower term) (lower (get_text seg)).
Proof.
  unfold matching_indices. rewrite matching_indices_loop. split.
  - intros [H|(seg & _ & Hl & Hc)]; [by apply elem_of_nil in H|].
    rewrite Nat.sub_0_r in Hl. exists seg. by rewrite <- contains_spec.
  - intros (seg & Hl & Hc). right. exists seg. rewrite Nat.sub_0_r, contains_spec.
    split; [lia|done].
Qed.

(** ** Runs of merged segments *)

Lemma append_assoc (a b c : string) : (a +:+ b) +:+ c = a +:+ b +:+ c.
Proof.
  induction a as [|x a IH]; [done|].
  change (String x ((a +:+ b) +:+ c) = String x (a +:+ b +:+ c)). by rewrite IH.
Qed.

Lemma join_snoc sep p ps q : join sep ((p :: ps) ++ [q]) = join sep (p :: ps) +:+ sep +:+ q.
Proof.
  revert p. induction ps as [|p' ps IH]; intros p; [done|].
  change (join sep ((p :: p' :: ps) ++ [q]))
    with (p +:+ sep +:+ join sep ((p' :: ps) ++ [q])).
  rewrite IH. change (join sep (p :: p' :: ps)) with (p +:+ sep +:+ join sep (p' :: ps)).
  by rewrite !append_assoc.
Qed.

Lemma last_cons {A} (x y : A) l : List.last (x :: l) y = List.last l x.
Proof.
  revert x y. induction l as [|z l IH]; intros x y; [done|].
  change (List.last (x :: z :: l) y) with (List.last (z :: l) y).
  by rewrite (IH z y), (IH z x).
Qed.

Lemma last_snoc {A} (x y : A) l : List.last (l ++ [x]) y = x.
Proof. apply last_last. Qed.

Section Runs.
Variable crit : Segment -> Segment -> bool.

Lemma runs_head a l : exists r rs, runs crit (a :: l) = (a, r) :: rs.
Proof.
  cbn. destruct (runs crit l) as [|[b r] rs]; [by eexists _, _|].
  destruct (crit a b); by eexists _, _.
Qed.

(** A chain that the next segment does not continue is a run of its own. *)
Lemma runs_chain a rest l :
  chain crit a rest ->
  match l with b :: _ => crit (List.last rest a) b = false | [] => True end ->
  runs crit (a :: rest ++ l) = (a, rest) :: runs crit l.
Proof.
  revert a. induction rest as [|c rest IH]; intros a Hc Hl.
  - cbn [app]. destruct l as [|b l]; [done|].
    destruct (runs_head b l) as (r & rs & E).
    change (runs crit (a :: b :: l))
      with (match runs crit (b :: l) with
            | (b, r) :: rs => if crit a b then (a, b :: r) :: rs else (a, []) :: (b, r) :: rs
            | [] => [(a, [])]
            end).
    rewrite E. cbn in Hl. by rewrite Hl.
  - destruct Hc as [Hac Hc]. rewrite last_cons in Hl.
    change (runs crit (a :: (c :: rest) ++ l))
      with (match runs crit (c :: rest ++ l) with
            | (b, r) :: rs => if crit a b then (a, b :: r) :: rs else (a, []) :: (b, r) :: rs
            | [] => [(a, [])]
            end).
    rewrite (IH c Hc Hl). by rewrite Hac.
Qed.

Lemma chain_snoc a rest b :
  chain crit a rest -> crit (List.last rest a) b = true -> chain crit a (rest ++ [b]).
Proof.
  revert a. induction rest as [|c rest IH]; intros a Hc Hb; [done|].
  destruct Hc as [Hac Hc]. rewrite last_cons in Hb. split; [done|]. by apply IH.
Qed.

(** A loop that accumulates a run and closes it when the criterion fails
    computes the runs of its input. *)
Section Loop.
Context {state : Type}.
Variables (step : state -> Segment -> state) (flush : state -> list Segment).
Variables (init : state) (own : list Segment -> run -> state) (merged : run -> Segment).
Hypothesis flush_init : flush init = [].
Hypothesis step_init : forall b, step init b = own [] (b, []).
Hypothesis flush_own : forall done r, flush (own done r) = done ++ [merged r].
Hypothesis step_own : forall done a rest b,
  chain crit a rest ->
  step (own done (a, rest)) b =
    if crit (List.last rest a) b then own done (a, rest ++ [b])
    else own (done ++ [merged (a, rest)]) (b, []).

Lemma loop_own l done a rest :
  chain crit a rest ->
  flush (fold_left step l (own done (a, rest)))
  = done ++ (merged <$> runs crit (a :: rest ++ l)).
Proof.
  revert done a rest. induction l as [|b l IH]; intros done a rest Hc.
  - cbn [fold_left]. by rewrite flush_own, (runs_chain a rest []).
  - cbn [fold_left]. rewrite step_own by done.
    destruct (crit (List.last rest a) b) eqn:E.
    + rewrite IH by (by apply chain_snoc). by rewrite <- (app_assoc rest [b] l).
    + rewrite (IH _ b []) by done. rewrite (runs_chain a rest (b :: l)) by done.
      by rewrite <- (app_assoc done).
Qed.

Lemma loop_runs l : flush (fold_left step l init) = merged <$> runs crit l.
Proof.
  destruct l as [|b l]; [apply flush_init|].
  cbn [fold_left]. rewrite step_init. by rewrite (loop_own l [] b []).
Qed.
End Loop.
End Runs.

(** ** The two grouping loops compute runs *)

Lemma chain_same {X} (crit : Segment -> Segment -> bool) (f : Segment -> X) :
  (forall a b, crit a b = true -> f b = f a) ->
  forall a rest, chain crit a rest -> f (List.last rest a) = f a.
Proof.
  intros Hf a rest. revert a. induction rest as [|c rest IH]; intros a Hc; [done|].
  destruct Hc as [Hac Hc]. rewrite last_cons, (IH c Hc). by apply Hf.
Qed.

Lemma merges_speaker a b : merges a b = true -> get_speaker b = get_speaker a.
Proof.
  unfold merges, same_speaker. rewrite !andb_true_iff. intros [[H _] _].
  by apply String.eqb_eq.
Qed.

Lemma merges_search_speaker a b : merges_search a b = true -> get_speaker b = get_speaker a.
Proof.
  unfold merges_search, same_speaker. rewrite !andb_true_iff. intros [[[H _] _] _].
  by apply String.eqb_eq.
Qed.

Lemma merges_search_is_match a b :
  merges_search a b = true -> get_is_match b = get_is_match a.
Proof.
  unfold merges_search, same_tags. rewrite !andb_true_iff. intros [_ [H _]].
  by apply Bool.eqb_prop.
Qed.

Lemma merges_search_group a b :
  merges_search a b = true -> context_group b = context_group a.
Proof.
  unfold merges_search, same_tags. rewrite !andb_true_iff. intros [_ [_ H]].
  by apply bool_decide_eq_true in H.
Qed.

Lemma transcript_step_own done a rest b :
  chain merges a rest ->
  display_speaker_transcript.step (transcript_state done (a, rest)) b =
    if merges (List.last rest a) b then transcript_state done (a, rest ++ [b])
    else transcript_state (done ++ [fuse (a, rest)]) (b, []).
Proof.
  intros Hc.
  unfold display_speaker_transcript.step, display_speaker_transcript.same_group.
  cbn [transcript_state display_speaker_transcript.current_speaker
       display_speaker_transcript.current_end fst snd run_last].
  unfold merges at 1, same_speaker, close_in_time.
  rewrite (chain_same merges get_speaker merges_speaker a rest Hc).
  destruct (_ && _ && _).
  - unfold transcript_state. cbn [fst snd run_last display_speaker_transcript.current_text
      display_speaker_transcript.grouped_segments display_speaker_transcript.current_start
      display_speaker_transcript.current_speaker].
    unfold run_last. cbn [fst snd]. rewrite last_snoc. f_equal.
    change (stripped_text <$> a :: rest ++ [b])
      with (stripped_text <$> (a :: rest) ++ [b]).
    rewrite fmap_app. symmetry. apply (join_snoc " " (stripped_text a)).
  - done.
Qed.

Lemma transcript_grouped_runs l :
  display_speaker_transcript.grouped l = fuse <$> runs merges (sorted_by_start_time l).
Proof.
  unfold display_speaker_transcript.grouped.
  apply (loop_runs merges display_speaker_transcript.step display_speaker_transcript.flush
           display_speaker_transcript.init transcript_state fuse); try done.
  apply transcript_step_own.
Qed.

Lemma search_step_own done a rest b :
  chain merges_search a rest ->
  display_search_result_with_speakers.step (search_state done (a, rest)) b =
    if merges_search (List.last rest a) b then search_state done (a, rest ++ [b])
    else search_state (done ++ [fuse_search (a, rest)]) (b, []).
Proof.
  intros Hc.
  unfold display_search_result_with_speakers.step,
    display_search_result_with_speakers.same_group.
  cbn [search_state display_search_result_with_speakers.current_speaker
       display_search_result_with_speakers.current_end
       display_search_result_with_speakers.current_is_match
       display_search_result_with_speakers.current_context_group fst snd run_last].
  unfold merges_search at 1, same_speaker, close_in_time, same_tags.
  rewrite (chain_same merges_search get_speaker merges_search_speaker a rest Hc).
  rewrite (chain_same merges_search get_is_match merges_search_is_match a rest Hc).
  rewrite (chain_same merges_search context_group merges_search_group a rest Hc).
  rewrite <- !andb_assoc.
  destruct (_ && _).
  - unfold search_state. cbn [fst snd run_last
      display_search_result_with_speakers.current_text
      display_search_result_with_speakers.grouped_segments
      display_search_result_with_speakers.current_start
      display_search_result_with_speakers.current_speaker
      display_search_result_with_speakers.current_is_match
      display_search_result_with_speakers.current_context_group].
    unfold run_last. cbn [fst snd]. rewrite last_snoc. f_equal.
    change (stripped_text <$> a :: rest ++ [b])
      with (stripped_text <$> (a :: rest) ++ [b]).
    rewrite fmap_app. symmetry. apply (join_snoc " " (stripped_text a)).
  - done.
Qed.

Lemma search_grouped_runs l :
  display_search_result_with_speakers.grouped l = fuse_search <$> runs merges_search l.
Proof.
  unfold display_search_result_with_speakers.grouped.
  apply (loop_runs merges_search display_search_result_with_speakers.step
           display_search_result_with_speakers.flush
           display_search_result_with_speakers.init search_state fuse_search); try done.
  apply search_step_own.
Qed.

(** ** Stripping *)

Lemma lstrip_head c s : is_space c = false -> lstrip (String c s) = String c s.
Proof. intros H. cbn. by rewrite H. Qed.

Lemma rstrip_idemp s : rstrip (rstrip s) = rstrip s.
Proof.
  induction s as [|c s IH]; [done|]. cbn.
  destruct (rstrip s) as [|d r] eqn:E.
  - destruct (is_space c) eqn:Ec; [done|]. cbn. by rewrite Ec.
  - cbn. cbn in IH. by rewrite IH.
Qed.

Lemma rstrip_head c s : is_space c = false -> exists r, rstrip (String c s) = String c r.
Proof.
  intros H. cbn. destruct (rstrip s); [|by eexists]. rewrite H. by eexists.
Qed.

Lemma lstrip_head_inv s : lstrip s = "" \/ exists c r, lstrip s = String c r /\ is_space c = false.
Proof.
  induction s as [|c s IH]; [by left|]. cbn.
  destruct (is_space c) eqn:E; [done|]. right. by exists c, s.
Qed.

Lemma strip_solid s : strip s <> "" -> solid (strip s).
Proof.
  unfold solid, strip. intros Hne. split; [done|]. split; [|apply rstrip_idemp].
  destruct (lstrip_head_inv s) as [E|(c & r & E & Hc)]; [by rewrite E in Hne|].
  rewrite E. destruct (rstrip_head c r Hc) as [r' ->]. by apply lstrip_head.
Qed.

Lemma lstrip_length s : (String.length (lstrip s) <= String.length s)%nat.
Proof.
  induction s as [|c s IH]; [done|]. cbn. destruct (is_space c); cbn; lia.
Qed.

Lemma lstrip_fixed c s : lstrip (String c s) = String c s -> is_space c = false.
Proof.
  cbn. destruct (is_space c); [|done]. intros H.
  pose proof (lstrip_length s) as Hl. rewrite H in Hl. cbn in Hl. lia.
Qed.

Lemma lstrip_app s u : s <> "" -> lstrip s = s -> lstrip (s +:+ u) = s +:+ u.
Proof.
  destruct s as [|c s]; [done|]. intros _ H.
  change (String c s +:+ u) with (String c (s +:+ u)).
  apply lstrip_head. by apply lstrip_fixed in H.
Qed.

Lemma append_nonempty u t : t <> "" -> u +:+ t <> "".
Proof. by destruct u. Qed.

Lemma rstrip_app u t : t <> "" -> rstrip t = t -> rstrip (u +:+ t) = u +:+ t.
Proof.
  intros Hne Ht. induction u as [|c u IH]; [done|].
  change (String c u +:+ t) with (String c (u +:+ t)).
  cbn. rewrite IH. pose proof (append_nonempty u t Hne) as Hn.
  by destruct (u +:+ t).
Qed.

Lemma join_solid sep t ts : Forall solid (t :: ts) -> solid (join sep (t :: ts)).
Proof.
  revert t. induction ts as [|t' ts IH]; intros t Hs.
  - by apply Forall_cons in Hs as [? _].
  - apply Forall_cons in Hs as [(Hne & Hl & Hr) Hs].
    destruct (IH t' Hs) as (Hne' & Hl' & Hr').
    change (join sep (t :: t' :: ts)) with (t +:+ sep +:+ join sep (t' :: ts)).
    split; [by destruct t|]. split; [by apply lstrip_app|].
    rewrite <- append_assoc. by apply rstrip_app.
Qed.

Lemma strip_of_solid t : solid t -> strip t = t.
Proof. intros (_ & Hl & Hr). unfold strip. by rewrite Hl. Qed.

(** ** The shape of the runs *)

Section RunsShape.
Variable crit : Segment -> Segment -> bool.

Lemma runs_separated l : separated crit (runs crit l).
Proof.
  induction l as [|a l IH]; [done|]. cbn [runs].
  destruct (runs crit l) as [|[b r] rs]; [done|].
  destruct IH as (Hc & Hn & Hs).
  destruct (crit a b) eqn:E.
  - split; [done|]. split; [|done].
    unfold run_last in *. cbn [fst snd] in *. by rewrite last_cons.
  - done.
Qed.

Lemma runs_elements (P : Segment -> Prop) l :
  Forall P l -> Forall (fun r => Forall P (fst r :: snd r)) (runs crit l).
Proof.
  induction 1 as [|a l Ha Hl IH]; [constructor|]. cbn [runs].
  destruct (runs crit l) as [|[b r] rs]; [by repeat constructor|].
  apply Forall_cons in IH as [Hb Hrs]. cbn [fst snd] in Hb.
  destruct (crit a b).
  - apply Forall_cons. split; [|done]. cbn [fst snd]. by apply Forall_cons.
  - apply Forall_cons. split; [by apply Forall_cons|]. by apply Forall_cons.
Qed.

Lemma runs_heads (R : relation Segment) l :
  StronglySorted R l -> StronglySorted R (fst <$> runs crit l).
Proof.
  induction 1 as [|a l Hs IH Ha]; [constructor|].
  pose proof (runs_elements (R a) l Ha) as He. cbn [runs].
  destruct (runs crit l) as [|[b r] rs]; [by repeat constructor|].
  apply Forall_cons in He as [Hb Hrs]. cbn [fmap list_fmap] in IH.
  apply StronglySorted_inv in IH as [IH Hbrs].
  assert (Forall (R a) (fst <$> rs)) as Hars.
  { apply Forall_fmap. eapply Forall_impl; [exact Hrs|].
    intros r' Hr'. by apply Forall_cons in Hr' as [? _]. }
  apply Forall_cons in Hb as [Hab _].
  destruct (crit a b).
  - by constructor.
  - constructor; [by constructor|]. by constructor.
Qed.

(** Merged runs do not merge again. *)
Lemma runs_of_separated (merged : run -> Segment) rs :
  (forall r r', chain crit (fst r) (snd r) ->
                crit (merged r) (merged r') = crit (run_last r) (fst r')) ->
  separated crit rs ->
  runs crit (merged <$> rs) = (fun r => (merged r, [])) <$> rs.
Proof.
  intros Hm. induction rs as [|r rs IH]; [done|].
  intros (Hc & Hn & Hs). cbn [fmap list_fmap runs].
  change (list_fmap run Segment merged rs) with (merged <$> rs).
  rewrite (IH Hs). destruct rs as [|r' rs]; [done|].
  cbn [fmap list_fmap]. by rewrite (Hm r r' Hc), Hn.
Qed.
End RunsShape.

(** ** Normalizing twice *)

Lemma merges_fuse r r' :
  chain merges (fst r) (snd r) -> merges (fuse r) (fuse r') = merges (run_last r) (fst r').
Proof.
  intros Hc. unfold merges, same_speaker, close_in_time.
  change (get_speaker (fuse r)) with (get_speaker (fst r)).
  by rewrite <- (chain_same merges get_speaker merges_speaker _ _ Hc).
Qed.

Lemma fuse_fuse r :
  Forall (fun s => stripped_text s <> "") (fst r :: snd r) -> fuse (fuse r, []) = fuse r.
Proof.
  intros Ht. unfold fuse at 1 3. cbn [fst snd run_last List.last fmap list_fmap join].
  f_equal. f_equal. unfold stripped_text at 1.
  change (get_text (fuse r)) with (join " " (stripped_text <$> fst r :: snd r)).
  apply strip_of_solid. cbn [fmap list_fmap]. apply (join_solid " ").
  apply Forall_cons in Ht as [Ha Hr].
  constructor; [by apply strip_solid|].
  apply Forall_fmap. eapply Forall_impl; [exact Hr|]. intros s Hs. by apply strip_solid.
Qed.

Lemma normalize_runs l : normalize l = fuse <$> runs merges (sorted_by_start_time l).
Proof. apply transcript_grouped_runs. Qed.

Lemma StronglySorted_transfer {A B C} (f : A -> B) (g : A -> C)
    (R1 : relation B) (R2 : relation C) (l : list A) :
  (forall x y, R1 (f x) (f y) -> R2 (g x) (g y)) ->
  StronglySorted R1 (f <$> l) -> StronglySorted R2 (g <$> l).
Proof.
  intros H. induction l as [|x l IH]; [constructor|].
  cbn [fmap list_fmap]. intros Hs. apply StronglySorted_inv in Hs as [Hs Hx].
  constructor; [by apply IH|].
  rewrite Forall_fmap in Hx. rewrite Forall_fmap.
  eapply Forall_impl; [exact Hx|]. intros y Hy. by apply H.
Qed.

Lemma sorted_by_start_time_sorted l :
  Forall numeric_start l -> StronglySorted start_le (sorted_by_start_time l).
Proof. apply sorted_sorted. Qed.

Lemma normalize_sorted l :
  Forall numeric_start l -> StronglySorted start_le (normalize l).
Proof.
  intros Hn. rewrite normalize_runs.
  apply (StronglySorted_transfer fst fuse start_le start_le); [done|].
  apply runs_heads. by apply sorted_by_start_time_sorted.
Qed.

Lemma normalize_idempotent l :
  Forall numeric_start l ->
  Forall (fun s => stripped_text s <> "") l ->
  normalize (normalize l) = normalize l.
Proof.
  intros Hn Ht. rewrite (normalize_runs (normalize l)).
  unfold sorted_by_start_time at 1.
  rewrite sorted_id by (apply StronglySorted_Sorted; by apply normalize_sorted).
  rewrite normalize_runs.
  rewrite (runs_of_separated merges fuse) by
    (try apply runs_separated; intros r r'; apply merges_fuse).
  rewrite <- list_fmap_compose.
  apply Forall_fmap_ext_1.
  assert (Forall (fun s => stripped_text s <> "") (sorted_by_start_time l)) as Hs.
  { unfold sorted_by_start_time. by rewrite sorted_perm. }
  eapply Forall_impl; [exact (runs_elements merges _ _ Hs)|].
  intros r Hr. by apply fuse_fuse.
Qed.

(** ** The context window extractor *)

Section Context.
Variable sorted_segments : list Segment.

Lemma provenance_init : provenance sorted_segments ([], ∅) [].
Proof. split; [done|]. split; [done|]. constructor. Qed.

Lemma add_index_prov m st prov i :
  provenance sorted_segments st prov ->
  (i < length sorted_segments)%nat ->
  exists ext,
    provenance sorted_segments (add_index sorted_segments m st i) (prov ++ ext)
    /\ (ext = [] \/ ext = [(i, m)])
    /\ i ∈ fst <$> prov ++ ext.
Proof.
  destruct st as [ctx added]. intros (Hctx & Hadded & Hnd) Hi.
  cbn [fst snd] in *. unfold add_index.
  destruct (decide (i ∈ added)) as [Hin|Hout].
  - exists []. rewrite app_nil_r. split; [done|]. split; [by left|].
    by rewrite Hadded, elem_of_list_to_set in Hin.
  - destruct (lookup_lt_is_Some_2 sorted_segments i Hi) as [seg Hseg].
    rewrite Hseg. exists [(i, m)]. split; [|split; [by right|]].
    + split; [|split]; cbn [fst snd].
      * rewrite !fmap_app, Hctx. f_equal. cbn. unfold tagged_at. cbn [fst snd].
        by rewrite Hseg.
      * rewrite fmap_app, list_to_set_app_L, Hadded. cbn.
        by rewrite (right_id_L ∅ (∪)), (comm_L (∪)).
      * rewrite fmap_app. apply NoDup_app. split; [done|]. split; [|apply NoDup_singleton].
        intros j Hj. cbn. rewrite list_elem_of_singleton. intros ->.
        apply Hout. by rewrite Hadded, elem_of_list_to_set.
    + rewrite fmap_app, elem_of_app. right. cbn. by apply list_elem_of_singleton.
Qed.

Lemma add_indices_prov m indices st prov :
  provenance sorted_segments st prov ->
  Forall (fun i => (i < length sorted_segments)%nat) indices ->
  exists ext,
    provenance sorted_segments
      (fold_left (add_index sorted_segments m) indices st) (prov ++ ext)
    /\ Forall (fun p => snd p = m /\ fst p ∈ indices) ext
    /\ (forall i, i ∈ indices -> i ∈ fst <$> prov ++ ext).
Proof.
  revert st prov. induction indices as [|i indices IH]; intros st prov Hp Hlt.
  - exists []. rewrite app_nil_r. split; [done|]. split; [constructor|].
    intros i Hi. by apply elem_of_nil in Hi.
  - apply Forall_cons in Hlt as [Hi Hlt]. cbn [fold_left].
    destruct (add_index_prov m st prov i Hp Hi) as (e1 & Hp1 & He1 & Hi1).
    destruct (IH _ _ Hp1 Hlt) as (e2 & Hp2 & He2 & Hi2).
    exists (e1 ++ e2). rewrite app_assoc. split; [done|]. split.
    + apply Forall_app. split.
      * destruct He1 as [->| ->]; [constructor|].
        constructor; [|constructor]. cbn. split; [done|]. apply list_elem_of_here.
      * eapply Forall_impl; [exact He2|]. intros p [? ?]. split; [done|].
        by apply list_elem_of_further.
    + intros j Hj. apply elem_of_cons in Hj as [->|Hj]; [|by apply Hi2].
      rewrite fmap_app, elem_of_app. by left.
Qed.

Lemma range_window c m i :
  i ∈ range (start_idx m c) (end_idx (length sorted_segments) m c)
  <-> in_window (length sorted_segments) c m i.
Proof. unfold range, in_window. rewrite elem_of_seq. lia. Qed.

Lemma in_window_lt c m i :
  in_window (length sorted_segments) c m i -> (i < length sorted_segments)%nat.
Proof. unfold in_window, end_idx. lia. Qed.

Lemma add_window_prov c m st prov :
  provenance sorted_segments st prov ->
  exists ext,
    provenance sorted_segments (add_window sorted_segments c st m) (prov ++ ext)
    /\ Forall (fun p => snd p = m /\ in_window (length sorted_segments) c m (fst p)) ext
    /\ (forall i, in_window (length sorted_segments) c m i -> i ∈ fst <$> prov ++ ext).
Proof.
  intros Hp. unfold add_window.
  destruct (add_indices_prov m
              (range (start_idx m c) (end_idx (length sorted_segments) m c)) st prov Hp)
    as (ext & Hp' & He & Hi).
  { apply Forall_forall. intros i Hi. apply (in_window_lt c m). by apply range_window. }
  exists ext. split; [done|]. split.
  - eapply Forall_impl; [exact He|]. intros p [? ?]. split; [done|]. by apply range_window.
  - intros i Hw. apply Hi. by apply range_window.
Qed.

Lemma add_windows_prov c matching st prov :
  provenance sorted_segments st prov ->
  exists ext,
    provenance sorted_segments
      (fold_left (add_window sorted_segments c) matching st) (prov ++ ext)
    /\ Forall (fun p => snd p ∈ matching
                        /\ in_window (length sorted_segments) c (snd p) (fst p)) ext
    /\ (forall m i, m ∈ matching -> in_window (length sorted_segments) c m i ->
                    i ∈ fst <$> prov ++ ext).
Proof.
  revert st prov. induction matching as [|m matching IH]; intros st prov Hp.
  - exists []. rewrite app_nil_r. split; [done|]. split; [constructor|].
    intros m i Hm. by apply elem_of_nil in Hm.
  - cbn [fold_left].
    destruct (add_window_prov c m st prov Hp) as (e1 & Hp1 & He1 & Hi1).
    destruct (IH _ _ Hp1) as (e2 & Hp2 & He2 & Hi2).
    exists (e1 ++ e2). rewrite app_assoc. split; [done|]. split.
    + apply Forall_app. split.
      * eapply Forall_impl; [exact He1|]. intros p [-> ?]. split; [|done].
        apply list_elem_of_here.
      * eapply Forall_impl; [exact He2|]. intros p [? ?]. split; [|done].
        by apply list_elem_of_further.
    + intros m' i Hm Hw. apply elem_of_cons in Hm as [->|Hm]; [|by eapply Hi2].
      rewrite fmap_app, elem_of_app. left. by apply Hi1.
Qed.

Lemma extract_context_prov c matching :
  exists prov,
    provenance sorted_segments (extract_context sorted_segments matching c) prov
    /\ Forall (fun p => snd p ∈ matching
                        /\ in_window (length sorted_segments) c (snd p) (fst p)) prov
    /\ (forall m i, m ∈ matching -> in_window (length sorted_segments) c m i ->
                    i ∈ fst <$> prov).
Proof.
  destruct (add_windows_prov c matching ([], ∅) [] provenance_init) as (prov & H).
  by exists prov.
Qed.
End Context.

Lemma find_matching_cases speaker_segments search_term context_size :
  let sorted_segments := sorted_by_start_time speaker_segments in
  let matching := matching_indices sorted_segments search_term in
  find_matching_segments_with_context speaker_segments search_term context_size = []
  \/ find_matching_segments_with_context speaker_segments search_term context_size
     = sorted_by_start_time
         (fst (extract_context sorted_segments matching context_size)).
Proof.
  intros S M. unfold find_matching_segments_with_context.
  destruct speaker_segments as [|s0 l0]; [by left|].
  destruct search_term as [|c0 t0]; [by left|].
  fold S. fold M. destruct M as [|m0 M0] eqn:EM; [by left|].
  right. by destruct (extract_context S (m0 :: M0) context_size).
Qed.

Lemma find_matching_no_match speaker_segments search_term context_size :
  matching_indices (sorted_by_start_time speaker_segments) search_term = [] ->
  find_matching_segments_with_context speaker_segments search_term context_size = [].
Proof.
  intros H. unfold find_matching_segments_with_context. rewrite H.
  destruct speaker_segments; [done|]. by destruct search_term.
Qed.

Lemma tagged_numeric sorted_segments ctx prov :
  Forall numeric_start sorted_segments ->
  Some <$> ctx = tagged_at sorted_segments <$> prov ->
  Forall numeric_start ctx.
Proof.
  intros Hn. revert prov. induction ctx as [|s ctx IH]; intros [|[i m] prov] [=];
    constructor; [|by eapply IH].
  unfold tagged_at in *. cbn [fst snd] in *.
  destruct (sorted_segments !! i) as [seg|] eqn:E; [|done].
  cbn in *. simplify_eq. eapply Forall_lookup_1 in E; [|exact Hn]. exact E.
Qed.

Lemma tagged_count sorted_segments ctx prov m :
  Some <$> ctx = tagged_at sorted_segments <$> prov ->
  length (filter (fun s => context_group s = Some m) ctx)
  = length (filter (fun p => snd p = m) prov).
Proof.
  revert prov. induction ctx as [|s ctx IH]; intros [|[i m'] prov] [=]; [done|].
  rewrite !filter_cons. unfold tagged_at in *. cbn [fst snd] in *.
  destruct (sorted_segments !! i) as [seg|] eqn:E; [|done].
  cbn in *. simplify_eq. cbn [context_group tag].
  destruct (decide (Some m' = Some m)) as [[= ->]|Hne].
  - rewrite decide_True by done. cbn. f_equal. by apply IH.
  - rewrite decide_False by congruence. by apply IH.
Qed.

Lemma window_width len c m : (end_idx len m c - start_idx m c <= 2 * c + 1)%nat.
Proof. unfold end_idx, start_idx. lia. Qed.

Lemma window_count len c m (prov : list (nat * nat)) :
  NoDup (fst <$> prov) ->
  Forall (fun p => in_window len c (snd p) (fst p)) prov ->
  (length (filter (fun p => snd p = m) prov) <= 2 * c + 1)%nat.
Proof.
  intros Hnd Hw.
  set (sel := filter (fun p => snd p = m) prov).
  assert (fst <$> sel ⊆+ seq (start_idx m c) (end_idx len m c - start_idx m c)) as Hsub.
  { apply NoDup_submseteq.
    - apply (sublist_NoDup _ (fst <$> prov)); [exact Hnd|].
      apply fmap_sublist. apply sublist_filter.
    - intros i Hi. apply list_elem_of_fmap in Hi as ([i' m'] & -> & Hp).
      apply list_elem_of_filter in Hp as [Hm Hp]. cbn in Hm. subst m'.
      rewrite Forall_forall in Hw. specialize (Hw _ Hp). cbn in *.
      apply elem_of_seq. unfold in_window in Hw. lia. }
  apply submseteq_length in Hsub. rewrite length_fmap, length_seq in Hsub.
  pose proof (window_width len c m). lia.
Qed.

(** Without context every match is in the output, tagged as a match: the
    windows are the matches themselves and cannot overlap. *)
Lemma context_zero_tags_matches speaker_segments search_term m :
  search_term <> "" ->
  m ∈ matching_indices (sorted_by_start_time speaker_segments) search_term ->
  exists seg,
    sorted_by_start_time speaker_segments !! m = Some seg
    /\ tag seg m m ∈ find_matching_segments_with_context speaker_segments search_term 0.
Proof.
  intros Hterm Hm.
  set (S := sorted_by_start_time speaker_segments) in *.
  set (M := matching_indices S search_term) in *.
  pose proof Hm as Hseg. apply matching_indices_spec in Hseg as (seg & Hseg & _).
  exists seg. split; [done|].
  destruct (extract_context_prov S 0 M) as (prov & (Hctx & _ & _) & Hw & Hcov).
  assert (in_window (length S) 0 m m) as Hin.
  { apply lookup_lt_Some in Hseg. unfold in_window, start_idx, end_idx. lia. }
  specialize (Hcov m m Hm Hin).
  apply list_elem_of_fmap in Hcov as ([i m'] & Hi & Hp). cbn in Hi. subst i.
  rewrite Forall_forall in Hw. destruct (Hw _ Hp) as [_ Hw'].
  cbn [fst snd] in Hw'.
  assert (m' = m) as -> by (unfold in_window, start_idx, end_idx in Hw'; lia).
  assert (tag seg m m ∈ fst (extract_context S M 0)) as Hctx'.
  { apply (list_elem_of_fmap_inj_2 Some). rewrite Hctx.
    apply list_elem_of_fmap. exists (m, m). split; [|done].
    unfold tagged_at. cbn [fst snd]. by rewrite Hseg. }
  unfold find_matching_segments_with_context. fold S. fold M.
  destruct speaker_segments as [|s0 l0].
  { apply lookup_lt_Some in Hseg. cbn in Hseg. lia. }
  destruct search_term as [|c0 t0]; [done|].
  destruct M as [|m0 M0] eqn:EM; [by apply elem_of_nil in Hm|].
  destruct (extract_context S (m0 :: M0) 0) as [ctx added]. cbn [fst] in Hctx'.
  unfold sorted_by_start_time. by rewrite sorted_perm.
Qed.

(** ** Subtitle export *)

Lemma stamp_ok t s : srt_timestamp t = Ok s -> stamp t = s.
Proof. unfold stamp. by intros ->. Qed.

Lemma search_subtitle_text_spec include_speakers s :
  search_subtitle_text include_speakers (get_speaker s) (stripped_text s) (get_is_match s)
  = search_text include_speakers s.
Proof.
  unfold search_subtitle_text, search_text.
  destruct (include_speakers && negb (get_speaker s =? "Unknown")%string),
    (get_is_match s); try done.
  - by rewrite append_assoc.
  - by rewrite append_assoc.
Qed.

Lemma search_srt_step_text include_speakers srt_content number s :
  has_text s -> renderable s ->
  search_srt_step include_speakers (srt_content, number) s
  = Ok (srt_content
        ++ [srt_entry number (stamp (get_start_time s)) (stamp (get_end_time s))
              (search_text include_speakers s)],
        number + 1).
Proof.
  intros Ht [[a Ha] [b Hb]]. unfold search_srt_step. cbv beta iota zeta.
  fold (stripped_text s). unfold has_text in Ht. rewrite Ht, Ha, Hb.
  cbn [negb mbind result_bind mret result_ret].
  by rewrite search_subtitle_text_spec, (stamp_ok _ _ Ha), (stamp_ok _ _ Hb).
Qed.

Lemma search_srt_step_silent include_speakers st s :
  ~ has_text s -> search_srt_step include_speakers st s = Ok st.
Proof.
  intros Ht. destruct st as [acc n]. unfold search_srt_step. cbv beta iota zeta.
  fold (stripped_text s). unfold has_text in Ht. apply not_true_is_false in Ht.
  by rewrite Ht.
Qed.

Lemma search_srt_loop include_speakers l srt_content number :
  Forall (fun s => has_text s -> renderable s) l ->
  for_each (search_srt_step include_speakers) l (srt_content, number)
  = Ok (srt_content
        ++ numbered (search_text include_speakers) number (filter has_text l),
        number + Z.of_nat (length (filter has_text l))).
Proof.
  revert srt_content number. induction l as [|s l IH]; intros acc n Hr.
  - cbn. by rewrite app_nil_r, Z.add_0_r.
  - apply Forall_cons in Hr as [Hs Hr]. cbn [for_each]. rewrite filter_cons.
    destruct (decide (has_text s)) as [Ht|Ht].
    + rewrite (search_srt_step_text _ _ _ _ Ht (Hs Ht)).
      cbn [mbind result_bind]. rewrite (IH _ _ Hr).
      cbn [numbered length]. rewrite <- app_assoc. f_equal. f_equal. lia.
    + rewrite (search_srt_step_silent _ _ _ Ht).
      cbn [mbind result_bind]. by rewrite (IH _ _ Hr).
Qed.

Lemma sorted_by_start_time_cons s l : sorted_by_start_time (s :: l) <> [].
Proof.
  intros H. apply sorted_nil_inv in H. done.
Qed.

Lemma search_srt_output segs file_info search_term include_speakers :
  segs <> [] ->
  Forall (fun s => has_text s -> renderable s) segs ->
  convert_search_results_to_srt (Some segs) file_info search_term include_speakers
  = Ok (Some (join nl (numbered (search_text include_speakers) 1
                         (filter has_text (sorted_by_start_time segs))))).
Proof.
  intros Hne Hr. destruct segs as [|s0 l0]; [done|].
  unfold convert_search_results_to_srt.
  rewrite search_srt_loop; [done|].
  unfold sorted_by_start_time. by rewrite sorted_perm.
Qed.

(** The speaker export numbers an entry with the position of its segment. *)
Lemma speaker_srt_step_text include_speakers srt_content i s :
  has_text s -> renderable s ->
  speaker_srt_step include_speakers srt_content (i, s)
  = Ok (srt_content
        ++ [srt_entry (Z.of_nat i) (stamp (get_start_time s)) (stamp (get_end_time s))
              (speaker_text include_speakers s)]).
Proof.
  intros Ht [[a Ha] [b Hb]]. unfold speaker_srt_step. cbv beta iota zeta.
  fold (stripped_text s). unfold has_text in Ht. rewrite Ht, Ha, Hb.
  cbn [negb mbind result_bind mret result_ret].
  by rewrite (stamp_ok _ _ Ha), (stamp_ok _ _ Hb).
Qed.

Lemma speaker_srt_step_silent include_speakers srt_content i s :
  ~ has_text s -> speaker_srt_step include_speakers srt_content (i, s) = Ok srt_content.
Proof.
  intros Ht. unfold speaker_srt_step. cbv beta iota zeta.
  fold (stripped_text s). unfold has_text in Ht. apply not_true_is_false in Ht.
  by rewrite Ht.
Qed.

Lemma speaker_srt_loop include_speakers l srt_content position :
  Forall (fun s => has_text s -> renderable s) l ->
  for_each (speaker_srt_step include_speakers) (enumerate position l) srt_content
  = Ok (srt_content ++ positioned (speaker_text include_speakers) position l).
Proof.
  revert srt_content position. induction l as [|s l IH]; intros acc n Hr.
  - cbn. by rewrite app_nil_r.
  - apply Forall_cons in Hr as [Hs Hr]. cbn [enumerate for_each positioned].
    destruct (decide (has_text s)) as [Ht|Ht].
    + rewrite (speaker_srt_step_text _ _ _ _ Ht (Hs Ht)).
      cbn [mbind result_bind]. rewrite (IH _ _ Hr). by rewrite <- app_assoc.
    + rewrite (speaker_srt_step_silent _ _ _ _ Ht).
      cbn [mbind result_bind]. by rewrite (IH _ _ Hr).
Qed.

Lemma speaker_srt_output segs file_info include_speakers :
  segs <> [] ->
  Forall (fun s => has_text s -> renderable s) segs ->
  convert_speaker_segments_to_srt (Some segs) file_info include_speakers
  = Ok (Some (join nl (positioned (speaker_text include_speakers) 1
                         (sorted_by_start_time segs)))).
Proof.
  intros Hne Hr. destruct segs as [|s0 l0]; [done|].
  unfold convert_speaker_segments_to_srt.
  rewrite speaker_srt_loop; [done|].
  unfold sorted_by_start_time. by rewrite sorted_perm.
Qed.

(** One entry per segment with text, in both exports. *)
Lemma positioned_length line position l :
  length (positioned line position l) = length (filter has_text l).
Proof.
  revert position. induction l as [|s l IH]; intros n; [done|].
  cbn [positioned]. rewrite filter_cons, length_app, IH.
  by destruct (decide (has_text s)).
Qed.

Lemma numbered_length line number l : length (numbered line number l) = length l.
Proof.
  revert number. induction l as [|s l IH]; intros n; [done|]. cbn. by rewrite IH.
Qed.

(** ** Pairs of adjacent segments *)

Import Sample.

Lemma runs_ext (crit1 crit2 : Segment -> Segment -> bool) l :
  Forall (fun a => forall b, crit1 a b = crit2 a b) l -> runs crit1 l = runs crit2 l.
Proof.
  induction 1 as [|a l Ha Hl IH]; [done|]. cbn [runs]. rewrite IH.
  destruct (runs crit2 l) as [|[b r] rs]; [done|]. by rewrite Ha.
Qed.

(** The criterion is only asked of a segment that has a successor. *)
Lemma runs_ext_init (crit1 crit2 : Segment -> Segment -> bool) l :
  Forall (fun a => forall b, crit1 a b = crit2 a b) (removelast l) ->
  runs crit1 l = runs crit2 l.
Proof.
  induction l as [|a l IH]; [done|]. intros H.
  destruct l as [|b l]; [done|].
  change (removelast (a :: b :: l)) with (a :: removelast (b :: l)) in H.
  apply Forall_cons in H as [Ha H].
  assert (forall crit,
            runs crit (a :: b :: l)
            = match runs crit (b :: l) with
              | (b', r) :: rs =>
                  if crit a b' then (a, b' :: r) :: rs else (a, []) :: (b', r) :: rs
              | [] => [(a, [])]
              end) as E by done.
  rewrite !E, (IH H).
  destruct (runs crit2 (b :: l)) as [|[c r] rs]; [done|]. by rewrite Ha.
Qed.

Lemma merges_near a b : float_truthy (get_end_time a) = true -> merges a b = near a b.
Proof. unfold merges, near. intros ->. by rewrite andb_true_r. Qed.

Lemma merges_search_near a b :
  float_truthy (get_end_time a) = true -> merges_search a b = near_search a b.
Proof. unfold merges_search, near_search. intros ->. by rewrite andb_true_r. Qed.

Lemma sorted_pair a b : start_le a b -> sorted_by_start_time [a; b] = [a; b].
Proof. intros H. cbn. unfold start_le, key_le in H. by rewrite H. Qed.

(** Two segments in chronological order, the first with a non-zero end:
    one merged segment if they are near, both segments otherwise. *)
Lemma grouped_pair a b :
  float_truthy (get_end_time a) = true -> start_le a b ->
  display_speaker_transcript.grouped [a; b]
  = if near a b then [fuse (a, [b])] else [fuse (a, []); fuse (b, [])].
Proof.
  intros Ha Hab. rewrite transcript_grouped_runs, (sorted_pair a b Hab).
  cbn [runs]. rewrite (merges_near a b Ha). by destruct (near a b).
Qed.

(** A previous segment that ends at time zero is never merged with. *)
Lemma merges_zero_end a b : float_truthy (get_end_time a) = false -> merges a b = false.
Proof. unfold merges. intros ->. by rewrite andb_false_r. Qed.

Lemma merges_search_zero_end a b :
  float_truthy (get_end_time a) = false -> merges_search a b = false.
Proof. unfold merges_search. intros ->. by rewrite andb_false_r. Qed.

Lemma zero_end_not_merged :
  near instant_a next_b = true
  /\ display_speaker_transcript.grouped [instant_a; next_b]
     = [fuse (instant_a, []); fuse (next_b, [])].
Proof. split; vm_compute; reflexivity. Qed.

(** ** Time stamps *)

Lemma int_finite t : is_finite t = true -> exists n, int t = Ok n.
Proof. destruct t; try done; by eexists. Qed.




(** ** The upload plan *)

Lemma upload_plan_loop_empty (local_files files_to_upload already_uploaded : list string) :
  fold_left (Uploader.classify ∅) local_files (files_to_upload, already_uploaded)
  = (files_to_upload ++ local_files, already_uploaded).
Proof.
  revert files_to_upload. induction local_files as [|f l IH]; intros acc.
  - by rewrite app_nil_r.
  - cbn [fold_left Uploader.classify].
    rewrite decide_True by apply not_elem_of_empty.
    rewrite IH. by rewrite <- app_assoc.
Qed.

(** * The claims *)

(** C1. Claimed: every match index has its own segment in the output of
    [find_matching_segments_with_context] tagged [is_match = true], also
    when it lies in the window of an earlier match.  The code tags a
    segment when it is first added, with [i == match_idx] for the match
    whose window is being added: on two adjacent segments that both
    contain the term, with a context of one, the second segment is a match
    (index 1 is in the match set) and comes out tagged [is_match = false],
    in the group of the first. *)
Theorem C1_match_in_earlier_window_is_tagged_context :
  matching_indices (sorted_by_start_time two_hits) "hi" = [0; 1]%nat
  /\ find_matching_segments_with_context two_hits "hi" 1
     = [ {| speaker := Some "A"; text := Some "hi";
            start_time := Some (of_int 0); end_time := Some (of_int 1);
            duration := None; is_match := Some true; context_group := Some 0%nat |};
         {| speaker := Some "B"; text := Some "hi there";
            start_time := Some (of_int 1); end_time := Some (of_int 2);
            duration := None; is_match := Some false; context_group := Some 0%nat |} ].
Proof. split; vm_compute; reflexivity. Qed.

(** C2. Claimed: the entries of [convert_speaker_segments_to_srt] are
    numbered 1, 2, 3, ... whatever the number of skipped segments.  The
    code numbers with the position in the sorted list: after one skipped
    segment the only entry has number 2.  [convert_search_results_to_srt]
    keeps a counter and numbers the same entry 1. *)
Theorem C2_speaker_srt_numbering_has_gaps :
  convert_speaker_segments_to_srt (Some silent_first) None true
  = Ok (Some (srt_entry 2 "00:00:01,000" "00:00:02,000" "B: hello"))
  /\ convert_search_results_to_srt (Some silent_first) None "" true
     = Ok (Some (srt_entry 1 "00:00:01,000" "00:00:02,000" "B: hello")).
Proof. split; vm_compute; reflexivity. Qed.

(** C3, as stated, fails: a segment that starts five seconds before the
    end of the previous one has a gap below two seconds and the same
    speaker, and is not merged. *)
Lemma C3_counterexample :
  start_le long_a inside_b
  /\ spec_merge_criterion long_a inside_b = true
  /\ display_speaker_transcript.grouped [long_a; inside_b]
     = [fuse (long_a, []); fuse (inside_b, [])].
Proof. repeat split; vm_compute; reflexivity. Qed.

(** C3, amended.  For start times that are numbers, both grouping loops
    return the maximal runs of adjacent segments that pass the test of the
    loop, each run merged into one segment that has the stripped texts
    joined by a single space, the start of the first and the end of the
    last ([display_speaker_transcript] on the segments in start order,
    [display_search_result_with_speakers] on the list as given).  Between
    a segment whose end time is not zero and the next one the test is:
    same speaker and the next start less than two seconds from the
    previous end, before or after it (and, in search mode, [is_match] and
    [context_group] agree); after a segment whose end time is zero or
    missing the test fails.  When every segment that has a successor ends
    at a non-zero time, the groups are the maximal runs of that
    criterion. *)
Theorem C3_merge_criterion (l : list Segment) :
  Forall numeric_start l ->
  let sorted_segments := sorted_by_start_time l in
  display_speaker_transcript.grouped l = fuse <$> runs merges sorted_segments
  /\ display_search_result_with_speakers.grouped l = fuse_search <$> runs merges_search l
  /\ (forall a b, float_truthy (get_end_time a) = true ->
        merges a b = near a b /\ merges_search a b = near_search a b)
  /\ (forall a b, float_truthy (get_end_time a) = false ->
        merges a b = false /\ merges_search a b = false)
  /\ (Forall (fun s => float_truthy (get_end_time s) = true) (removelast sorted_segments) ->
      display_speaker_transcript.grouped l = fuse <$> runs near sorted_segments)
  /\ (Forall (fun s => float_truthy (get_end_time s) = true) (removelast l) ->
      display_search_result_with_speakers.grouped l = fuse_search <$> runs near_search l).
Proof.
  intros _ S. split; [apply transcript_grouped_runs|].
  split; [apply search_grouped_runs|].
  split; [intros a b Ha; split; [by apply merges_near|by apply merges_search_near]|].
  split; [intros a b Ha; split; [by apply merges_zero_end|by apply merges_search_zero_end]|].
  split; intros Hl.
  - rewrite transcript_grouped_runs. f_equal. apply runs_ext_init.
    eapply Forall_impl; [exact Hl|]. intros a Ha b. by apply merges_near.
  - rewrite search_grouped_runs. f_equal. apply runs_ext_init.
    eapply Forall_impl; [exact Hl|]. intros a Ha b. by apply merges_search_near.
Qed.

Lemma C3_witness :
  Forall numeric_start zero_end_last
  /\ Forall (fun s => float_truthy (get_end_time s) = true)
       (removelast (sorted_by_start_time zero_end_last))
  /\ display_speaker_transcript.grouped zero_end_last
     = [segment "A" "x y" (of_int 0) (of_int 0)].
Proof.
  assert (Forall numeric_start zero_end_last) as Hn by (repeat constructor).
  assert (Forall (fun s => float_truthy (get_end_time s) = true)
            (removelast (sorted_by_start_time zero_end_last))) as Ht.
  { apply Forall_cons_2; [reflexivity|apply Forall_nil_2]. }
  split; [exact Hn|]. split; [exact Ht|].
  rewrite (proj1 (proj2 (proj2 (proj2 (proj2 (C3_merge_criterion zero_end_last Hn))))) Ht).
  vm_compute. reflexivity.
Defined.

(** C4, as stated, fails: a match without a known speaker does not come
    out as the bare text, its line is tagged. *)
Lemma C4_counterexample :
  convert_search_results_to_srt (Some [unknown_match]) None "hi" true
  = Ok (Some (srt_entry 1 "00:00:00,000" "00:00:01,000" "[MATCH]: hi"))
  /\ spec_search_text true unknown_match = "hi".
Proof. split; vm_compute; reflexivity. Qed.

(** C4, amended.  For start times that are numbers, the output of
    [convert_search_results_to_srt] is made of one entry per segment with
    text, in start order, numbered from 1, and
    the text line of an entry is: with speaker inclusion and a speaker
    other than "Unknown", the speaker, then [ [MATCH]] for a match, then
    [: ] and the text; otherwise the text, preceded by [[MATCH]: ] for a
    match. *)
Theorem C4_search_srt_text (segs : list Segment) (file_info : option FileInfo)
    (search_term : string) (include_speakers : bool) :
  Forall numeric_start segs ->
  segs <> [] ->
  Forall (fun s => has_text s -> renderable s) segs ->
  convert_search_results_to_srt (Some segs) file_info search_term include_speakers
  = Ok (Some (join nl (numbered (search_text include_speakers) 1
                         (filter has_text (sorted_by_start_time segs))))).
Proof. intros _. apply search_srt_output. Qed.

Lemma C4_witness :
  Forall numeric_start [unknown_match]
  /\ [unknown_match] <> []
  /\ Forall (fun s => has_text s -> renderable s) [unknown_match]
  /\ convert_search_results_to_srt (Some [unknown_match]) None "hi" false
     = Ok (Some (join nl (numbered (search_text false) 1
                            (filter has_text (sorted_by_start_time [unknown_match]))))).
Proof.
  assert (Forall (fun s => has_text s -> renderable s) [unknown_match]) as H.
  { constructor; [|constructor]. intros _. split; eexists; vm_compute; reflexivity. }
  assert (Forall numeric_start [unknown_match]) as Hn by (repeat constructor).
  split; [exact Hn|]. split; [done|]. split; [exact H|].
  apply (C4_search_srt_text [unknown_match] None "hi" false); [exact Hn|done|exact H].
Defined.

(** C5, as stated, fails: merging a segment without text leaves a space
    at the end of the merged text, which the next normalization strips. *)
Lemma C5_counterexample :
  normalize (normalize trailing_silence) <> normalize trailing_silence.
Proof. vm_compute. discriminate. Qed.

(** C5, amended.  For a list of segments whose start times are numbers
    and whose stripped texts are not empty, normalizing the normalized
    list returns it unchanged. *)
Theorem C5_normalize_idempotent (l : list Segment) :
  Forall numeric_start l ->
  Forall (fun s => stripped_text s <> "") l ->
  normalize (normalize l) = normalize l.
Proof. apply normalize_idempotent. Qed.

Lemma C5_witness :
  Forall numeric_start scenario
  /\ Forall (fun s => stripped_text s <> "") scenario
  /\ normalize (normalize scenario) = normalize scenario.
Proof.
  assert (Forall numeric_start scenario) as Hn by (repeat constructor).
  assert (Forall (fun s => stripped_text s <> "") scenario) as Ht.
  { repeat constructor; vm_compute; discriminate. }
  split; [exact Hn|]. split; [exact Ht|].
  exact (C5_normalize_idempotent scenario Hn Ht).
Defined.

(** C6. For start times that are numbers, the output of
    [find_matching_segments_with_context] is in ascending order of start
    time; it holds one tagged copy [tagged_at] for each pair of a list
    [prov] of indices paired with matches, no index twice, every index in
    the window [[max(0, m - c), min(len, m + c + 1))] of its match [m]
    and every index of every window present; a window is at most
    [2 * c + 1] wide and at most that many segments carry the group of one
    match; without matches the output is empty. *)
Theorem C6_context_structure (speaker_segments : list Segment) (search_term : string)
    (context_size : nat) :
  Forall numeric_start speaker_segments ->
  let sorted_segments := sorted_by_start_time speaker_segments in
  let matching := matching_indices sorted_segments search_term in
  let out :=
    find_matching_segments_with_context speaker_segments search_term context_size in
  StronglySorted start_le out
  /\ (exists prov : list (nat * nat),
        NoDup (fst <$> prov)
        /\ Some <$> out ≡ₚ tagged_at sorted_segments <$> prov
        /\ Forall (fun p => snd p ∈ matching
                            /\ in_window (length sorted_segments) context_size
                                 (snd p) (fst p)) prov
        /\ (out <> [] ->
            forall m i, m ∈ matching ->
                        in_window (length sorted_segments) context_size m i ->
                        i ∈ fst <$> prov))
  /\ (forall m,
        (end_idx (length sorted_segments) m context_size
         - start_idx m context_size <= 2 * context_size + 1)%nat
        /\ (length (filter (fun s => context_group s = Some m) out)
            <= 2 * context_size + 1)%nat)
  /\ (matching = [] -> out = []).
Proof.
  intros Hn S M out.
  assert (Forall numeric_start S) as HnS.
  { unfold S, sorted_by_start_time. by rewrite sorted_perm. }
  destruct (extract_context_prov S context_size M) as (prov & Hp & Hw & Hcov).
  destruct Hp as (Hctx & _ & Hnd).
  set (ctx := fst (extract_context S M context_size)) in *.
  assert (sorted_by_start_time ctx ≡ₚ ctx) as Hperm by apply sorted_perm.
  destruct (find_matching_cases speaker_segments search_term context_size) as [E|E];
    fold S M ctx out in E.
  - rewrite E. split; [constructor|]. split.
    + exists []. split; [constructor|]. split; [done|]. split; [constructor|done].
    + split; [|done]. intros m. split; [apply window_width|cbn; lia].
  - split; [|split; [|split]].
    + rewrite E. apply sorted_by_start_time_sorted. by eapply tagged_numeric.
    + exists prov. split; [done|]. split; [|split; [done|]].
      * by rewrite E, Hperm, Hctx.
      * intros _. exact Hcov.
    + intros m. split; [apply window_width|].
      rewrite E, Hperm, (tagged_count S ctx prov m Hctx).
      apply (window_count (length S)); [done|].
      eapply Forall_impl; [exact Hw|]. by intros p [_ ?].
    + apply find_matching_no_match.
Qed.

Lemma C6_witness :
  Forall numeric_start two_hits
  /\ StronglySorted start_le (find_matching_segments_with_context two_hits "hi" 1).
Proof.
  assert (Forall numeric_start two_hits) as H by (repeat constructor).
  split; [exact H|]. exact (proj1 (C6_context_structure two_hits "hi" 1 H)).
Defined.




(** C8. An index is in the match set exactly when the lower-cased term
    occurs in the lower-cased text of the segment at that index; an empty
    term, and an empty list, are answered with the empty list by the guard
    at the head of the function. *)
Theorem C8_match_locator :
  (forall sorted_segments term i,
      i ∈ matching_indices sorted_segments term
      <-> exists seg, sorted_segments !! i = Some seg
            /\ substring_of (lower term) (lower (get_text seg)))
  /\ (forall speaker_segments context_size,
        find_matching_segments_with_context speaker_segments "" context_size = [])
  /\ (forall search_term context_size,
        find_matching_segments_with_context [] search_term context_size = []).
Proof.
  split; [apply matching_indices_spec|]. split.
  - by intros [|??] ?.
  - done.
Qed.

(** C9. When the listing of the stage raises, [get_stage_files] returns
    the empty set and prints the warning, and the upload plan puts every
    local file in [files_to_upload]. *)
Theorem C9_listing_failure_is_empty_stage (conn : Uploader.Connection)
    (stage_name : string) (e : exn) :
  Uploader.list_stage conn stage_name = Raise e ->
  Uploader.get_stage_files conn stage_name
  = (∅, [Uploader.Checking stage_name; Uploader.Warning e; Uploader.AssumingEmpty])
  /\ forall local_files,
       Uploader.upload_plan local_files (fst (Uploader.get_stage_files conn stage_name))
       = (local_files, []).
Proof.
  intros H. unfold Uploader.get_stage_files. rewrite H. split; [done|].
  intros local_files. apply (upload_plan_loop_empty local_files [] []).
Qed.

Lemma C9_witness :
  Uploader.list_stage broken "DB.SCHEMA.STAGE" = Raise (Error "connection lost")
  /\ Uploader.get_stage_files broken "DB.SCHEMA.STAGE"
     = (∅, [Uploader.Checking "DB.SCHEMA.STAGE";
            Uploader.Warning (Error "connection lost"); Uploader.AssumingEmpty]).
Proof.
  assert (Uploader.list_stage broken "DB.SCHEMA.STAGE" = Raise (Error "connection lost"))
    as H by reflexivity.
  split; [exact H|].
  exact (proj1 (C9_listing_failure_is_empty_stage broken "DB.SCHEMA.STAGE" _ H)).
Defined.

(** C10. Each of the four converters returns [None] for a missing list
    and for an empty list. *)
Theorem C10_converters_return_none (round2 : float -> float) (fmt_1f : float -> string)
    (export_date search_term : string) (file_info : option FileInfo)
    (include_speakers : bool) :
  convert_speaker_segments_to_csv round2 fmt_1f export_date None file_info = Ok None
  /\ convert_speaker_segments_to_csv round2 fmt_1f export_date (Some []) file_info
     = Ok None
  /\ convert_search_results_to_csv round2 fmt_1f export_date None file_info search_term
     = Ok None
  /\ convert_search_results_to_csv round2 fmt_1f export_date (Some []) file_info
       search_term = Ok None
  /\ convert_speaker_segments_to_srt None file_info include_speakers = Ok None
  /\ convert_speaker_segments_to_srt (Some []) file_info include_speakers = Ok None
  /\ convert_search_results_to_srt None file_info search_term include_speakers = Ok None
  /\ convert_search_results_to_srt (Some []) file_info search_term include_speakers
     = Ok None.
Proof. repeat split. Qed.

(** * Further properties *)

(** ** The context window extractor *)

Lemma matching_indices_loop_sorted term l k acc :
  StronglySorted lt acc -> Forall (fun i => (i < k)%nat) acc ->
  StronglySorted lt
    (fold_left
       (fun matching_indices '(i, segment) =>
          let text := lower (get_text segment) in
          if contains (lower term) text then matching_indices ++ [i]
          else matching_indices)
       (enumerate k l) acc).
Proof.
  revert k acc. induction l as [|s l IH]; intros k acc Hs Hk; [done|].
  cbn [enumerate fold_left]. apply IH.
  - destruct (contains _ _); [|done].
    apply StronglySorted_app. split; [|split; [done|repeat constructor]].
    intros i j Hi Hj. apply list_elem_of_singleton in Hj as ->.
    rewrite Forall_forall in Hk. by apply Hk.
  - destruct (contains _ _).
    + apply Forall_app. split; [|repeat constructor].
      eapply Forall_impl; [exact Hk|]. intros; cbn in *; lia.
    + eapply Forall_impl; [exact Hk|]. intros; cbn in *; lia.
Qed.

Lemma matching_indices_sorted sorted_segments term :
  StronglySorted lt (matching_indices sorted_segments term).
Proof. apply matching_indices_loop_sorted; constructor. Qed.

Section FirstWindow.
Variable sorted_segments : list Segment.
Variable c : nat.

(** The pairs added for a list of matches in ascending order carry, for
    each index, the first match whose window holds it. *)
Lemma add_windows_first matching st prov (covered : nat -> Prop) :
  provenance sorted_segments st prov ->
  StronglySorted lt matching ->
  (forall m i, covered m -> in_window (length sorted_segments) c m i ->
               i ∈ fst <$> prov) ->
  exists ext,
    provenance sorted_segments
      (fold_left (add_window sorted_segments c) matching st) (prov ++ ext)
    /\ Forall (fun p => snd p ∈ matching
                        /\ in_window (length sorted_segments) c (snd p) (fst p)) ext
    /\ (forall m i, m ∈ matching -> in_window (length sorted_segments) c m i ->
                    i ∈ fst <$> prov ++ ext)
    /\ Forall (fun p => forall m, covered m \/ (m ∈ matching /\ (m < snd p)%nat) ->
                        ~ in_window (length sorted_segments) c m (fst p)) ext.
Proof.
  revert st prov covered.
  induction matching as [|m matching IH]; intros st prov covered Hp Hs Hcov.
  - exists []. rewrite app_nil_r. split; [done|]. split; [constructor|].
    split; [|constructor]. intros m i Hm. by apply elem_of_nil in Hm.
  - apply StronglySorted_inv in Hs as [Hs Hm]. cbn [fold_left].
    destruct (add_window_prov sorted_segments c m st prov Hp) as (e1 & Hp1 & He1 & Hi1).
    destruct (IH _ (prov ++ e1) (fun m' => covered m' \/ m' = m) Hp1 Hs)
      as (e2 & Hp2 & He2 & Hi2 & Hf2).
    { intros m' i [Hc| ->] Hw; [|by apply Hi1].
      rewrite fmap_app, elem_of_app. left. by eapply Hcov. }
    exists (e1 ++ e2). rewrite app_assoc. split; [done|]. split; [|split].
    + apply Forall_app. split.
      * eapply Forall_impl; [exact He1|]. intros p [-> ?]. split; [|done].
        apply list_elem_of_here.
      * eapply Forall_impl; [exact He2|]. intros p [? ?]. split; [|done].
        by apply list_elem_of_further.
    + intros m' i Hm' Hw. apply elem_of_cons in Hm' as [->|Hm']; [|by eapply Hi2].
      rewrite fmap_app, elem_of_app. left. by apply Hi1.
    + apply Forall_app. split.
      * destruct Hp1 as (_ & _ & Hnd). rewrite fmap_app in Hnd.
        apply NoDup_app in Hnd as (_ & Hdis & _).
        apply Forall_forall. intros p Hpe m' Hm' Hw.
        rewrite Forall_forall in He1. destruct (He1 p Hpe) as [Hpm _].
        destruct Hm' as [Hc|[Hin Hlt]].
        -- apply (Hdis (fst p)); [by eapply Hcov|]. by apply list_elem_of_fmap_2.
        -- rewrite Hpm in Hlt. apply elem_of_cons in Hin as [->|Hin]; [lia|].
           rewrite Forall_forall in Hm. specialize (Hm _ Hin). lia.
      * eapply Forall_impl; [exact Hf2|]. intros p Hp' m' Hm'. apply Hp'.
        destruct Hm' as [Hc|[Hin Hlt]]; [by left; left|].
        apply elem_of_cons in Hin as [->|Hin]; [by left; right|by right].
Qed.
End FirstWindow.

(** What the output of [find_matching_segments_with_context] is made of,
    for a search term that is not empty. *)
Lemma find_matching_prov speaker_segments search_term context_size :
  search_term <> "" ->
  let sorted_segments := sorted_by_start_time speaker_segments in
  let matching := matching_indices sorted_segments search_term in
  exists prov : list (nat * nat),
    Some <$> find_matching_segments_with_context speaker_segments search_term context_size
      ≡ₚ tagged_at sorted_segments <$> prov
    /\ NoDup (fst <$> prov)
    /\ Forall (fun p =>
                 snd p ∈ matching
                 /\ in_window (length sorted_segments) context_size (snd p) (fst p)
                 /\ forall m, m ∈ matching -> (m < snd p)%nat ->
                      ~ in_window (length sorted_segments) context_size m (fst p)) prov
    /\ (forall m i, m ∈ matching ->
                    in_window (length sorted_segments) context_size m i ->
                    i ∈ fst <$> prov).
Proof.
  intros Hterm S M.
  destruct (add_windows_first S context_size M ([], ∅) [] (fun _ => False)
              (provenance_init S) (matching_indices_sorted S search_term))
    as (prov & (Hctx & _ & Hnd) & Hw & Hcov & Hfirst); [done|].
  cbn [app] in *.
  assert (Forall (fun p =>
                 snd p ∈ M
                 /\ in_window (length S) context_size (snd p) (fst p)
                 /\ forall m, m ∈ M -> (m < snd p)%nat ->
                      ~ in_window (length S) context_size m (fst p)) prov) as Hall.
  { rewrite Forall_forall in Hw, Hfirst. apply Forall_forall. intros p Hp.
    destruct (Hw p Hp) as [? ?]. split; [done|]. split; [done|].
    intros m Hm Hlt. apply (Hfirst p Hp). by right. }
  unfold find_matching_segments_with_context. fold S. fold M.
  destruct speaker_segments as [|s0 l0].
  { exists []. repeat split; try constructor.
    intros m i Hm. unfold M, S in Hm. cbn in Hm. by apply elem_of_nil in Hm. }
  destruct search_term as [|c0 t0]; [done|].
  destruct M as [|m0 M0] eqn:EM.
  { exists []. repeat split; try constructor. intros m i Hm. by apply elem_of_nil in Hm. }
  exists prov.
  destruct (extract_context S (m0 :: M0) context_size) as [ctx added] eqn:E.
  unfold extract_context in E. rewrite E in Hctx. cbn [fst] in Hctx.
  split; [|done]. unfold sorted_by_start_time. by rewrite sorted_perm, Hctx.
Qed.

Lemma tagged_elem sorted_segments (out : list Segment) (prov : list (nat * nat)) i g :
  Some <$> out ≡ₚ tagged_at sorted_segments <$> prov ->
  (i, g) ∈ prov ->
  exists seg, sorted_segments !! i = Some seg /\ tag seg i g ∈ out.
Proof.
  intros Hperm Hp.
  assert (tagged_at sorted_segments (i, g) ∈ Some <$> out) as Hin.
  { rewrite Hperm. by apply list_elem_of_fmap_2. }
  apply list_elem_of_fmap in Hin as (s & Hs & Hin).
  unfold tagged_at in Hs. cbn [fst snd] in Hs.
  destruct (sorted_segments !! i) as [seg|]; [|done].
  exists seg. split; [done|]. cbn in Hs. by simplify_eq.
Qed.

Lemma tagged_elem_inv sorted_segments (out : list Segment) (prov : list (nat * nat)) s :
  Some <$> out ≡ₚ tagged_at sorted_segments <$> prov ->
  s ∈ out ->
  exists i g seg, (i, g) ∈ prov /\ sorted_segments !! i = Some seg /\ s = tag seg i g.
Proof.
  intros Hperm Hs.
  assert (Some s ∈ tagged_at sorted_segments <$> prov) as Hin.
  { rewrite <- Hperm. by apply list_elem_of_fmap_2. }
  apply list_elem_of_fmap in Hin as ([i g] & Hp & Hin).
  unfold tagged_at in Hp. cbn [fst snd] in Hp.
  destruct (sorted_segments !! i) as [seg|] eqn:E; [|done].
  exists i, g, seg. cbn in Hp. by simplify_eq.
Qed.

Lemma in_window_self len c m : (m < len)%nat -> in_window len c m m.
Proof. unfold in_window, start_idx, end_idx. lia. Qed.

Lemma in_window_earlier len c m i :
  (m < i)%nat -> (i < len)%nat -> in_window len c m i <-> (i - m <= c)%nat.
Proof. unfold in_window, start_idx, end_idx. lia. Qed.

Lemma matching_indices_lt sorted_segments term m :
  m ∈ matching_indices sorted_segments term -> (m < length sorted_segments)%nat.
Proof.
  intros H. apply matching_indices_spec in H as (seg & H & _).
  by apply lookup_lt_Some in H.
Qed.

(** For start times that are numbers, the group of a segment is the
    first match whose window holds it. *)
Theorem context_group_is_first_window (speaker_segments : list Segment)
    (search_term : string) (context_size m i : nat) :
  Forall numeric_start speaker_segments ->
  search_term <> "" ->
  let sorted_segments := sorted_by_start_time speaker_segments in
  let matching := matching_indices sorted_segments search_term in
  m ∈ matching ->
  in_window (length sorted_segments) context_size m i ->
  exists seg g,
    sorted_segments !! i = Some seg
    /\ tag seg i g
       ∈ find_matching_segments_with_context speaker_segments search_term context_size
    /\ g ∈ matching
    /\ in_window (length sorted_segments) context_size g i
    /\ (g <= m)%nat.
Proof.
  intros _ Hterm S M Hm Hw.
  destruct (find_matching_prov speaker_segments search_term context_size Hterm)
    as (prov & Hperm & Hnd & Hall & Hcov). fold S M in Hperm, Hall, Hcov.
  specialize (Hcov m i Hm Hw).
  apply list_elem_of_fmap in Hcov as ([i' g] & Hi & Hp). cbn in Hi. subst i'.
  destruct (tagged_elem S _ prov i g Hperm Hp) as (seg & Hseg & Hin).
  rewrite Forall_forall in Hall. destruct (Hall _ Hp) as (Hg & Hgw & Hfirst).
  cbn [fst snd] in *. exists seg, g.
  split; [done|]. split; [done|]. split; [done|]. split; [done|].
  destruct (decide (g <= m)%nat) as [?|Hgt]; [done|].
  exfalso. apply (Hfirst m Hm); [lia|done].
Qed.

(** For start times that are numbers, a match is tagged as a match
    exactly when no earlier match lies within the context size. *)
Theorem match_tagged_iff_isolated (speaker_segments : list Segment)
    (search_term : string) (context_size i : nat) :
  Forall numeric_start speaker_segments ->
  search_term <> "" ->
  let sorted_segments := sorted_by_start_time speaker_segments in
  let matching := matching_indices sorted_segments search_term in
  i ∈ matching ->
  exists seg g,
    sorted_segments !! i = Some seg
    /\ tag seg i g
       ∈ find_matching_segments_with_context speaker_segments search_term context_size
    /\ (is_match (tag seg i g) = Some true
        <-> forall m, m ∈ matching -> (m < i)%nat -> (context_size < i - m)%nat).
Proof.
  intros _ Hterm S M Hi.
  pose proof (matching_indices_lt S search_term i Hi) as Hlt.
  destruct (find_matching_prov speaker_segments search_term context_size Hterm)
    as (prov & Hperm & Hnd & Hall & Hcov). fold S M in Hperm, Hall, Hcov.
  pose proof (Hcov i i Hi (in_window_self _ _ _ Hlt)) as Hin.
  apply list_elem_of_fmap in Hin as ([i' g] & Hi' & Hp). cbn in Hi'. subst i'.
  destruct (tagged_elem S _ prov i g Hperm Hp) as (seg & Hseg & Hout).
  rewrite Forall_forall in Hall. destruct (Hall _ Hp) as (Hg & Hgw & Hfirst).
  cbn [fst snd] in *. exists seg, g. split; [done|]. split; [done|].
  cbn [is_match tag]. split.
  - intros [= Heq]. apply Nat.eqb_eq in Heq. subst g.
    intros m Hm Hmi. specialize (Hfirst m Hm Hmi).
    rewrite in_window_earlier in Hfirst by done. lia.
  - intros Hiso. f_equal. apply Nat.eqb_eq.
    destruct (decide (g = i)) as [->|Hne]; [done|]. exfalso.
    assert (g < i)%nat as Hgi.
    { destruct (decide (g < i)%nat); [done|]. exfalso.
      apply (Hfirst i Hi); [lia|]. by apply in_window_self. }
    specialize (Hiso g Hg Hgi). rewrite in_window_earlier in Hgw by done. lia.
Qed.

(** For start times that are numbers, every output segment is an input
    segment with the two tags set; its group is a match, and one tagged
    as a match contains the term. *)
Theorem context_segments_are_tagged_copies (speaker_segments : list Segment)
    (search_term : string) (context_size : nat) (s : Segment) :
  Forall numeric_start speaker_segments ->
  s ∈ find_matching_segments_with_context speaker_segments search_term context_size ->
  exists seg i g,
    seg ∈ speaker_segments
    /\ s = tag seg i g
    /\ g ∈ matching_indices (sorted_by_start_time speaker_segments) search_term
    /\ (is_match s = Some true ->
        substring_of (lower search_term) (lower (get_text s))).
Proof.
  intros _ Hs. destruct search_term as [|c0 t0].
  { destruct speaker_segments; by apply elem_of_nil in Hs. }
  set (term := String c0 t0) in *.
  destruct (find_matching_prov speaker_segments term context_size)
    as (prov & Hperm & Hnd & Hall & Hcov); [done|].
  destruct (tagged_elem_inv _ _ prov s Hperm Hs) as (i & g & seg & Hp & Hseg & ->).
  rewrite Forall_forall in Hall. destruct (Hall _ Hp) as (Hg & _ & _).
  cbn [fst snd] in *. exists seg, i, g. split; [|split; [done|split; [done|]]].
  - apply list_elem_of_lookup_2 in Hseg.
    unfold sorted_by_start_time in Hseg. by rewrite sorted_perm in Hseg.
  - cbn [is_match tag]. intros [= Heq]. apply Nat.eqb_eq in Heq. subst g.
    apply matching_indices_spec in Hg as (seg' & Hseg' & Hsub).
    rewrite Hseg in Hseg'. by simplify_eq.
Qed.

(** The output is no longer than the input, and it is empty exactly when
    the list or the term is empty or nothing matches. *)
Theorem context_output_size (speaker_segments : list Segment) (search_term : string)
    (context_size : nat) :
  let out :=
    find_matching_segments_with_context speaker_segments search_term context_size in
  (length out <= length speaker_segments)%nat
  /\ (out = [] <-> speaker_segments = [] \/ search_term = ""
                   \/ matching_indices (sorted_by_start_time speaker_segments)
                        search_term = []).
Proof.
  intros out. destruct search_term as [|c0 t0].
  { unfold out. destruct speaker_segments; cbn; split; try lia; split; auto. }
  set (term := String c0 t0) in *.
  set (S := sorted_by_start_time speaker_segments).
  destruct (find_matching_prov speaker_segments term context_size)
    as (prov & Hperm & Hnd & Hall & Hcov); [done|]. fold S out in Hperm, Hall, Hcov.
  assert (length out = length prov) as Hlen.
  { apply Permutation_length in Hperm. by rewrite !length_fmap in Hperm. }
  split.
  - rewrite Hlen, <- (length_fmap fst prov).
    replace (length speaker_segments) with (length (seq 0 (length S))).
    2:{ rewrite length_seq. unfold S, sorted_by_start_time. apply sorted_length. }
    apply submseteq_length, NoDup_submseteq; [done|].
    intros i Hi. apply list_elem_of_fmap in Hi as ([i' g] & -> & Hp).
    rewrite Forall_forall in Hall. destruct (Hall _ Hp) as (_ & Hw & _).
    apply elem_of_seq. apply in_window_lt in Hw. cbn in *. lia.
  - split.
    + intros Hout. right. right.
      destruct (matching_indices S term) as [|m M] eqn:EM; [done|]. exfalso.
      assert (m ∈ matching_indices S term) as Hm by (rewrite EM; apply list_elem_of_here).
      pose proof (matching_indices_lt S term m Hm) as Hlt.
      rewrite <- EM in Hcov.
      pose proof (Hcov m m Hm (in_window_self _ _ _ Hlt)) as Hin.
      rewrite Hout in Hlen. destruct prov; [by apply elem_of_nil in Hin|done].
    + intros [->|[?|HM]]; [done|done|]. by apply find_matching_no_match.
Qed.

(** ** The grouping loops *)

Lemma join_app sep (a b : list string) :
  a <> [] -> b <> [] -> join sep (a ++ b) = join sep a +:+ sep +:+ join sep b.
Proof.
  intros Ha Hb. induction a as [|p a IH]; [done|].
  destruct a as [|q a].
  - cbn [app]. destruct b; [done|]. done.
  - change (join sep ((p :: q :: a) ++ b)) with (p +:+ sep +:+ join sep ((q :: a) ++ b)).
    rewrite IH by done.
    change (join sep (p :: q :: a)) with (p +:+ sep +:+ join sep (q :: a)).
    by rewrite !append_assoc.
Qed.

Section RunsCover.
Variable crit : Segment -> Segment -> bool.

Lemma runs_concat l : concat (run_segments <$> runs crit l) = l.
Proof.
  induction l as [|a l IH]; [done|]. cbn [runs].
  destruct (runs crit l) as [|[b r] rs]; [by rewrite <- IH|].
  destruct (crit a b); by rewrite <- IH.
Qed.

Lemma runs_length l : (length (runs crit l) <= length l)%nat.
Proof.
  induction l as [|a l IH]; [done|]. cbn [runs].
  destruct (runs crit l) as [|[b r] rs]; [cbn; lia|].
  destruct (crit a b); cbn in *; lia.
Qed.

Lemma separated_lookup rs k r1 r2 :
  separated crit rs -> rs !! k = Some r1 -> rs !! S k = Some r2 ->
  chain crit (fst r1) (snd r1) /\ crit (run_last r1) (fst r2) = false.
Proof.
  revert k. induction rs as [|r rs IH]; intros k Hs H1 H2; [done|].
  destruct Hs as (Hc & Hn & Hs). destruct k as [|k].
  - cbn in H1, H2. simplify_eq. destruct rs as [|r' rs]; [done|].
    cbn in H2. by simplify_eq.
  - by apply (IH k).
Qed.

Lemma chain_Forall_same {X} (f : Segment -> X) :
  (forall a b, crit a b = true -> f b = f a) ->
  forall a rest, chain crit a rest -> Forall (fun s => f s = f a) rest.
Proof.
  intros Hf a rest. revert a. induction rest as [|b rest IH]; intros a Hc; [constructor|].
  destruct Hc as [Hab Hc]. constructor; [by apply Hf|].
  eapply Forall_impl; [exact (IH b Hc)|]. intros s Hs. cbn in Hs. rewrite Hs. by apply Hf.
Qed.

Lemma join_runs (merged : run -> Segment) rs :
  (forall r, get_text (merged r) = join " " (stripped_text <$> run_segments r)) ->
  join " " (get_text <$> (merged <$> rs))
  = join " " (stripped_text <$> concat (run_segments <$> rs)).
Proof.
  intros Hm. induction rs as [|r rs IH]; [done|].
  cbn [fmap list_fmap concat].
  change (list_fmap run Segment merged rs) with (merged <$> rs).
  change (list_fmap Segment string get_text (merged <$> rs))
    with (get_text <$> (merged <$> rs)).
  destruct rs as [|r' rs].
  - cbn. by rewrite app_nil_r, Hm.
  - rewrite fmap_app, join_app; [|done|by destruct r'].
    rewrite <- IH, Hm. done.
Qed.
End RunsCover.

(** For start times that are numbers, the grouped transcript reads like
    the segments in start order: no text is lost, repeated or moved, and
    there are no more groups than segments. *)
Theorem grouped_keeps_text (l : list Segment) :
  Forall numeric_start l ->
  join " " (get_text <$> display_speaker_transcript.grouped l)
  = join " " (stripped_text <$> sorted_by_start_time l)
  /\ (length (display_speaker_transcript.grouped l) <= length l)%nat.
Proof.
  intros _. rewrite transcript_grouped_runs. split.
  - rewrite (join_runs fuse) by done. by rewrite runs_concat.
  - rewrite length_fmap. etrans; [apply runs_length|].
    unfold sorted_by_start_time. by rewrite sorted_length.
Qed.

(** The groups come out in ascending order of start time. *)
Theorem grouped_sorted (l : list Segment) :
  Forall numeric_start l ->
  StronglySorted start_le (display_speaker_transcript.grouped l).
Proof. apply normalize_sorted. Qed.

(** Two groups that follow each other could not have been merged: the
    test of the loop fails between them. *)
Theorem grouped_is_maximal (l : list Segment) (k : nat) (g1 g2 : Segment) :
  display_speaker_transcript.grouped l !! k = Some g1 ->
  display_speaker_transcript.grouped l !! S k = Some g2 ->
  get_speaker g2 <> get_speaker g1
  \/ float_truthy (get_end_time g1) = false
  \/ close_in_time g1 g2 = false.
Proof.
  rewrite transcript_grouped_runs, !list_lookup_fmap. intros H1 H2.
  destruct (runs merges (sorted_by_start_time l) !! k) as [r1|] eqn:E1; [|done].
  destruct (runs merges (sorted_by_start_time l) !! S k) as [r2|] eqn:E2; [|done].
  cbn in H1, H2. simplify_eq.
  destruct (separated_lookup merges _ k r1 r2 (runs_separated merges _) E1 E2)
    as [Hc Hn].
  rewrite <- (merges_fuse r1 r2 Hc) in Hn. unfold merges, same_speaker in Hn.
  apply andb_false_iff in Hn as [Hn|Hn]; [|by right; right].
  apply andb_false_iff in Hn as [Hn|Hn]; [|by right; left].
  left. intros Heq. rewrite Heq, String.eqb_refl in Hn. done.
Qed.

(** Segments whose end time is missing or zero are never merged: for
    start times that are numbers, every segment is a group of its own, in
    start order. *)
Theorem grouped_without_end_times (l : list Segment) :
  Forall numeric_start l ->
  Forall (fun s => float_truthy (get_end_time s) = false) l ->
  display_speaker_transcript.grouped l
  = (fun s => fuse (s, [])) <$> sorted_by_start_time l.
Proof.
  intros _ Hl. rewrite transcript_grouped_runs.
  rewrite (runs_ext merges (fun _ _ => false)).
  2:{ unfold sorted_by_start_time. rewrite sorted_perm.
      eapply Forall_impl; [exact Hl|]. intros a Ha b. by apply merges_zero_end. }
  induction (sorted_by_start_time l) as [|a l' IH]; [done|].
  cbn [runs fmap list_fmap] in *.
  destruct (runs (fun _ _ => false) l') as [|[b r] rs]; cbn in *; by rewrite <- IH.
Qed.

(** The search display splits the list into consecutive blocks, each
    with one speaker, one match flag and one context group. *)
Theorem search_groups_are_uniform_blocks (l : list Segment) :
  exists rs : list run,
    display_search_result_with_speakers.grouped l = fuse_search <$> rs
    /\ concat (run_segments <$> rs) = l
    /\ Forall (fun r =>
                 Forall (fun s => get_speaker s = get_speaker (fst r)
                                  /\ get_is_match s = get_is_match (fst r)
                                  /\ context_group s = context_group (fst r))
                   (snd r)) rs.
Proof.
  exists (runs merges_search l). split; [apply search_grouped_runs|].
  split; [apply runs_concat|].
  pose proof (runs_separated merges_search l) as Hs.
  induction (runs merges_search l) as [|r rs IH]; [constructor|].
  destruct Hs as (Hc & _ & Hs). constructor; [|by apply IH].
  pose proof (chain_Forall_same merges_search get_speaker merges_search_speaker _ _ Hc).
  pose proof (chain_Forall_same merges_search get_is_match merges_search_is_match _ _ Hc).
  pose proof (chain_Forall_same merges_search context_group merges_search_group _ _ Hc).
  rewrite !Forall_forall in *. naive_solver.
Qed.

(** ** The exporters *)

Lemma filter_has_text_sorted_length l :
  length (filter has_text (sorted_by_start_time l)) = length (filter has_text l).
Proof. unfold sorted_by_start_time. by rewrite sorted_perm. Qed.

(** For start times that are numbers, the speaker export has one entry
    for each segment with text, in order of start time, numbered with the
    position of the segment among all the sorted segments. *)
Theorem speaker_srt_entries (segs : list Segment) (file_info : option FileInfo)
    (include_speakers : bool) :
  Forall numeric_start segs ->
  segs <> [] ->
  Forall (fun s => has_text s -> renderable s) segs ->
  let entries :=
    positioned (speaker_text include_speakers) 1 (sorted_by_start_time segs) in
  convert_speaker_segments_to_srt (Some segs) file_info include_speakers
  = Ok (Some (join nl entries))
  /\ length entries = length (filter has_text segs).
Proof.
  intros _ Hne Hr entries. split; [by apply speaker_srt_output|].
  unfold entries. by rewrite positioned_length, filter_has_text_sorted_length.
Qed.

Lemma positioned_silent line position l :
  Forall (fun s => ~ has_text s) l -> positioned line position l = [].
Proof.
  intros H. revert position. induction H as [|s l Hs Hl IH]; intros n; [done|].
  cbn [positioned]. rewrite decide_False by done. apply IH.
Qed.

Lemma filter_silent l : Forall (fun s => ~ has_text s) l -> filter has_text l = [].
Proof.
  induction 1 as [|s l Hs Hl IH]; [done|]. rewrite filter_cons.
  by rewrite decide_False.
Qed.

(** A list that is not empty but has no segment with text gives the
    empty string, whatever the times are. *)
Theorem srt_of_silent_segments (segs : list Segment) (file_info : option FileInfo)
    (search_term : string) (include_speakers : bool) :
  segs <> [] ->
  Forall (fun s => ~ has_text s) segs ->
  convert_speaker_segments_to_srt (Some segs) file_info include_speakers = Ok (Some "")
  /\ convert_search_results_to_srt (Some segs) file_info search_term include_speakers
     = Ok (Some "").
Proof.
  intros Hne Hs.
  assert (Forall (fun s => has_text s -> renderable s) segs) as Hr.
  { eapply Forall_impl; [exact Hs|]. by intros s Hn Ht. }
  assert (Forall (fun s => ~ has_text s) (sorted_by_start_time segs)) as Hs'.
  { unfold sorted_by_start_time. by rewrite sorted_perm. }
  split.
  - rewrite speaker_srt_output by done. by rewrite positioned_silent.
  - rewrite search_srt_output by done. by rewrite filter_silent.
Qed.

Lemma srt_timestamp_raises t : is_finite t = false -> exists e, srt_timestamp t = Raise e.
Proof. destruct t; try done; by eexists. Qed.

Lemma for_each_raises {S A} (body : S -> A -> result S) (l : list A) (x : A) (st : S) :
  x ∈ l -> (forall st', exists e, body st' x = Raise e) ->
  exists e, for_each body l st = Raise e.
Proof.
  intros Hx Hbody. revert st. induction l as [|y l IH]; intros st.
  - by apply elem_of_nil in Hx.
  - cbn [for_each]. apply elem_of_cons in Hx as [<-|Hx].
    + destruct (Hbody st) as [e ->]. by exists e.
    + destruct (body st y) as [st'|e]; [|by exists e]. by apply IH.
Qed.

Lemma enumerate_elem {A} (l : list A) (x : A) k :
  x ∈ l -> exists i, (i, x) ∈ enumerate k l.
Proof.
  revert k. induction l as [|y l IH]; intros k Hx; [by apply elem_of_nil in Hx|].
  apply elem_of_cons in Hx as [->|Hx].
  - exists k. apply list_elem_of_here.
  - destruct (IH (S k) Hx) as [i Hi]. exists i. by apply list_elem_of_further.
Qed.

Lemma sorted_by_start_time_elem s l : s ∈ l -> s ∈ sorted_by_start_time l.
Proof. unfold sorted_by_start_time. by rewrite sorted_perm. Qed.

(** A segment with text whose start or end time is NaN or infinite makes
    both subtitle exports raise: nothing is returned. *)
Theorem srt_raises_on_bad_time (segs : list Segment) (file_info : option FileInfo)
    (search_term : string) (include_speakers : bool) (s : Segment) :
  s ∈ segs -> has_text s ->
  is_finite (get_start_time s) = false \/ is_finite (get_end_time s) = false ->
  (exists e, convert_speaker_segments_to_srt (Some segs) file_info include_speakers
             = Raise e)
  /\ (exists e, convert_search_results_to_srt (Some segs) file_info search_term
                  include_speakers = Raise e).
Proof.
  intros Hs Ht Hbad.
  pose proof (sorted_by_start_time_elem s segs Hs) as Hs'.
  destruct segs as [|s0 l0]; [by apply elem_of_nil in Hs|].
  unfold has_text in Ht. split.
  - unfold convert_speaker_segments_to_srt.
    destruct (enumerate_elem _ s 1%nat Hs') as [i Hi].
    destruct (for_each_raises (speaker_srt_step include_speakers) _ (i, s) [] Hi)
      as [e ->]; [|by exists e].
    intros acc. unfold speaker_srt_step. cbv beta iota zeta.
    fold (stripped_text s). rewrite Ht. cbn [negb].
    destruct (srt_timestamp (get_start_time s)) as [a|e] eqn:Ea; [|by exists e].
    destruct (srt_timestamp (get_end_time s)) as [b|e] eqn:Eb; [|by exists e].
    exfalso. destruct Hbad as [Hb|Hb];
      destruct (srt_timestamp_raises _ Hb) as [e He]; congruence.
  - unfold convert_search_results_to_srt.
    destruct (for_each_raises (search_srt_step include_speakers) _ s ([], 1) Hs')
      as [e ->]; [|by exists e].
    intros [acc n]. unfold search_srt_step. cbv beta iota zeta.
    fold (stripped_text s). rewrite Ht. cbn [negb].
    destruct (srt_timestamp (get_start_time s)) as [a|e] eqn:Ea; [|by exists e].
    destruct (srt_timestamp (get_end_time s)) as [b|e] eqn:Eb; [|by exists e].
    exfalso. destruct Hbad as [Hb|Hb];
      destruct (srt_timestamp_raises _ Hb) as [e He]; congruence.
Qed.

Lemma mm_ss_finite t : is_finite t = true -> mm_ss t = Ok (time_label t).
Proof.
  intros Hf. unfold time_label. destruct (int_finite t Hf) as [n Hn].
  unfold mm_ss. by rewrite Hn.
Qed.

Lemma mm_ss_raises t : is_finite t = false -> exists e, mm_ss t = Raise e.
Proof. destruct t; try done; by eexists. Qed.

Lemma numbered_rows_length row k l : length (numbered_rows row k l) = length l.
Proof. revert k. induction l as [|s l IH]; intros k; [done|]. cbn. by rewrite IH. Qed.

Lemma numbered_rows_lookup row k l j s :
  l !! j = Some s -> numbered_rows row k l !! j = Some (row (k + j)%nat s).
Proof.
  revert k j. induction l as [|s' l IH]; intros k j Hj; [done|].
  destruct j as [|j]; cbn [numbered_rows] in *.
  - cbn in *. simplify_eq. by rewrite Nat.add_0_r.
  - change ((row k s' :: numbered_rows row (S k) l) !! S j)
      with (numbered_rows row (S k) l !! j).
    rewrite (IH (S k) j Hj). f_equal. f_equal. lia.
Qed.

Lemma numbered_rows_columns row columns k l :
  (forall i s, fst <$> row i s = columns) ->
  Forall (fun r => fst <$> r = columns) (numbered_rows row k l).
Proof.
  intros Hrow. revert k. induction l as [|s l IH]; intros k; constructor; [done|apply IH].
Qed.

Section TabularFacts.
Variable round2 : float -> float.
Variable fmt_1f : float -> string.
Variable export_date : string.

Lemma speaker_csv_step_ok csv_data i s :
  finite_times s ->
  speaker_csv_step round2 csv_data (i, s)
  = Ok (csv_data ++ [speaker_csv_row round2 i s]).
Proof.
  intros [Ha Hb]. unfold speaker_csv_step. cbv beta iota zeta.
  by rewrite (mm_ss_finite _ Ha), (mm_ss_finite _ Hb).
Qed.

Lemma search_csv_step_ok csv_data i s :
  finite_times s ->
  search_csv_step round2 csv_data (i, s)
  = Ok (csv_data ++ [search_csv_row round2 i s]).
Proof.
  intros [Ha Hb]. unfold search_csv_step. cbv beta iota zeta.
  by rewrite (mm_ss_finite _ Ha), (mm_ss_finite _ Hb).
Qed.

Lemma speaker_csv_loop l k csv_data :
  Forall finite_times l ->
  for_each (speaker_csv_step round2) (enumerate k l) csv_data
  = Ok (csv_data ++ numbered_rows (speaker_csv_row round2) k l).
Proof.
  revert k csv_data. induction l as [|s l IH]; intros k acc Hf.
  - cbn. by rewrite app_nil_r.
  - apply Forall_cons in Hf as [Hs Hf]. cbn [enumerate for_each].
    rewrite (speaker_csv_step_ok _ _ _ Hs). cbn [mbind result_bind].
    rewrite (IH _ _ Hf). by rewrite <- app_assoc.
Qed.

Lemma search_csv_loop l k csv_data :
  Forall finite_times l ->
  for_each (search_csv_step round2) (enumerate k l) csv_data
  = Ok (csv_data ++ numbered_rows (search_csv_row round2) k l).
Proof.
  revert k csv_data. induction l as [|s l IH]; intros k acc Hf.
  - cbn. by rewrite app_nil_r.
  - apply Forall_cons in Hf as [Hs Hf]. cbn [enumerate for_each].
    rewrite (search_csv_step_ok _ _ _ Hs). cbn [mbind result_bind].
    rewrite (IH _ _ Hf). by rewrite <- app_assoc.
Qed.

Lemma file_rows_columns columns d :
  (3 <= length columns)%nat ->
  Forall (fun r => fst <$> r = columns) (file_rows fmt_1f export_date columns d).
Proof.
  intros Hc. destruct columns as [|c0 [|c1 [|c2 rest]]]; cbn in Hc; try lia.
  unfold file_rows, metadata_row.
  repeat constructor; cbn; f_equal; f_equal; f_equal;
    rewrite <- list_fmap_compose; by rewrite list_fmap_id.
Qed.

Lemma separator_row_columns columns : fst <$> separator_row columns = columns.
Proof.
  unfold separator_row. rewrite <- list_fmap_compose. by rewrite list_fmap_id.
Qed.
End TabularFacts.

(** For segments with finite times the speaker table has one data row
    for each segment, with or without text, in order of start time and
    numbered from 1, below five header rows when [file_info] has a key
    and none otherwise; all rows have the same eight columns. *)
Theorem speaker_csv_table (round2 : float -> float) (fmt_1f : float -> string)
    (export_date : string) (segs : list Segment) (file_info : option FileInfo) :
  segs <> [] ->
  Forall finite_times segs ->
  exists header : DataFrame,
    convert_speaker_segments_to_csv round2 fmt_1f export_date (Some segs) file_info
    = Ok (Some (header
                ++ numbered_rows (speaker_csv_row round2) 1 (sorted_by_start_time segs)))
    /\ length header = (if file_info_truthy file_info then 5 else 0)%nat
    /\ length (numbered_rows (speaker_csv_row round2) 1 (sorted_by_start_time segs))
       = length segs
    /\ Forall (fun r => fst <$> r = speaker_columns)
         (header
          ++ numbered_rows (speaker_csv_row round2) 1 (sorted_by_start_time segs)).
Proof.
  intros Hne Hf.
  assert (Forall finite_times (sorted_by_start_time segs)) as Hf'.
  { unfold sorted_by_start_time. by rewrite sorted_perm. }
  assert (length (numbered_rows (speaker_csv_row round2) 1 (sorted_by_start_time segs))
          = length segs) as Hlen.
  { rewrite numbered_rows_length. unfold sorted_by_start_time. apply sorted_length. }
  pose proof (numbered_rows_columns (speaker_csv_row round2) speaker_columns 1
                (sorted_by_start_time segs) (fun _ _ => eq_refl)) as Hcols.
  destruct segs as [|s0 l0]; [done|].
  unfold convert_speaker_segments_to_csv.
  rewrite (speaker_csv_loop round2 _ _ _ Hf'). cbn [mbind result_bind app].
  destruct file_info as [d|]; [destruct (file_info_truthy (Some d)) eqn:Et|].
  - exists (file_rows fmt_1f export_date speaker_columns d
            ++ [separator_row speaker_columns]).
    rewrite <- app_assoc. split; [done|]. split; [done|]. split; [done|].
    apply Forall_app. split; [|apply Forall_app; split; [|done]].
    + apply file_rows_columns. cbn. lia.
    + constructor; [apply separator_row_columns|constructor].
  - by exists [].
  - by exists [].
Qed.

(** The same for the search table, with six header rows and ten
    columns; a row says [YES] for a match and [CONTEXT] otherwise, and its
    group is the match index plus one. *)
Theorem search_csv_table (round2 : float -> float) (fmt_1f : float -> string)
    (export_date search_term : string) (segs : list Segment)
    (file_info : option FileInfo) :
  segs <> [] ->
  Forall finite_times segs ->
  exists header : DataFrame,
    convert_search_results_to_csv round2 fmt_1f export_date (Some segs) file_info
      search_term
    = Ok (Some (header
                ++ numbered_rows (search_csv_row round2) 1 (sorted_by_start_time segs)))
    /\ length header = (if file_info_truthy file_info then 6 else 0)%nat
    /\ length (numbered_rows (search_csv_row round2) 1 (sorted_by_start_time segs))
       = length segs
    /\ Forall (fun r => fst <$> r = search_columns)
         (header
          ++ numbered_rows (search_csv_row round2) 1 (sorted_by_start_time segs)).
Proof.
  intros Hne Hf.
  assert (Forall finite_times (sorted_by_start_time segs)) as Hf'.
  { unfold sorted_by_start_time. by rewrite sorted_perm. }
  assert (length (numbered_rows (search_csv_row round2) 1 (sorted_by_start_time segs))
          = length segs) as Hlen.
  { rewrite numbered_rows_length. unfold sorted_by_start_time. apply sorted_length. }
  pose proof (numbered_rows_columns (search_csv_row round2) search_columns 1
                (sorted_by_start_time segs) (fun _ _ => eq_refl)) as Hcols.
  destruct segs as [|s0 l0]; [done|].
  unfold convert_search_results_to_csv.
  rewrite (search_csv_loop round2 _ _ _ Hf'). cbn [mbind result_bind app].
  destruct file_info as [d|]; [destruct (file_info_truthy (Some d)) eqn:Et|].
  - exists (metadata_row search_columns "Search_Term" search_term
            :: file_rows fmt_1f export_date search_columns d
            ++ [separator_row search_columns]).
    rewrite <- app_comm_cons, <- app_assoc.
    split; [done|]. split; [done|]. split; [done|].
    constructor.
    + done.
    + apply Forall_app. split; [apply file_rows_columns; cbn; lia|].
      constructor; [apply separator_row_columns|done].
  - by exists [].
  - by exists [].
Qed.

(** A segment whose start or end time is NaN or infinite makes both
    tabular exports raise, also when it has no text. *)
Theorem csv_raises_on_bad_time (round2 : float -> float) (fmt_1f : float -> string)
    (export_date search_term : string) (segs : list Segment)
    (file_info : option FileInfo) (s : Segment) :
  s ∈ segs ->
  is_finite (get_start_time s) = false \/ is_finite (get_end_time s) = false ->
  (exists e, convert_speaker_segments_to_csv round2 fmt_1f export_date (Some segs)
               file_info = Raise e)
  /\ (exists e, convert_search_results_to_csv round2 fmt_1f export_date (Some segs)
                  file_info search_term = Raise e).
Proof.
  intros Hs Hbad.
  pose proof (sorted_by_start_time_elem s segs Hs) as Hs'.
  destruct (enumerate_elem _ s 1%nat Hs') as [i Hi].
  destruct segs as [|s0 l0]; [by apply elem_of_nil in Hs|].
  split.
  - unfold convert_speaker_segments_to_csv.
    destruct (for_each_raises (speaker_csv_step round2) _ (i, s) [] Hi)
      as [e ->]; [|by exists e].
    intros acc. unfold speaker_csv_step. cbv beta iota zeta.
    destruct (mm_ss (get_start_time s)) as [a|e] eqn:Ea; [|by exists e].
    destruct (mm_ss (get_end_time s)) as [b|e] eqn:Eb; [|by exists e].
    exfalso. destruct Hbad as [Hb|Hb]; destruct (mm_ss_raises _ Hb) as [e He]; congruence.
  - unfold convert_search_results_to_csv.
    destruct (for_each_raises (search_csv_step round2) _ (i, s) [] Hi)
      as [e ->]; [|by exists e].
    intros acc. unfold search_csv_step. cbv beta iota zeta.
    destruct (mm_ss (get_start_time s)) as [a|e] eqn:Ea; [|by exists e].
    destruct (mm_ss (get_end_time s)) as [b|e] eqn:Eb; [|by exists e].
    exfalso. destruct Hbad as [Hb|Hb]; destruct (mm_ss_raises _ Hb) as [e He]; congruence.
Qed.

(** ** The stage listing and the upload *)

Lemma last_component_slash current a b :
  Uploader.last_component current (a +:+ String "/" b) = Uploader.basename b.
Proof.
  revert current. induction a as [|c a IH]; intros current.
  - done.
  - change (String c a +:+ String "/" b) with (String c (a +:+ String "/" b)).
    cbn [Uploader.last_component]. destruct (Ascii.eqb c "/"); apply IH.
Qed.

Lemma last_component_plain current p :
  contains "/" p = false -> Uploader.last_component current p = current.
Proof.
  revert current. induction p as [|c p IH]; intros current; [done|].
  cbn [contains startswith Uploader.last_component].
  destruct (Ascii.eqb "/" c) eqn:E.
  - by destruct p.
  - rewrite Ascii.eqb_sym, E. cbn. apply IH.
Qed.

Lemma split_last_slash p :
  contains "/" p = true ->
  exists a b, p = a +:+ String "/" b /\ contains "/" b = false.
Proof.
  induction p as [|c p IH]; [done|]. intros Hc.
  destruct (contains "/" p) eqn:Ep.
  - destruct (IH eq_refl) as (a & b & -> & Hb). by exists (String c a), b.
  - cbn [contains startswith] in Hc. rewrite Ep, orb_false_r in Hc.
    destruct (Ascii.eqb "/" c) eqn:E; [|done].
    apply Ascii.eqb_eq in E as <-. by exists "", p.
Qed.

(** The name kept for a staged file is what follows the last slash of
    its path: directories do not count, a path without a slash is its
    own name, and no name holds a slash. *)
Theorem basename_drops_directories :
  (forall dir p, Uploader.basename (dir +:+ "/" +:+ p) = Uploader.basename p)
  /\ (forall p, contains "/" p = false -> Uploader.basename p = p)
  /\ (forall p, contains "/" (Uploader.basename p) = false).
Proof.
  split; [|split].
  - intros dir p. apply last_component_slash.
  - intros p Hp. by apply last_component_plain.
  - intros p. destruct (contains "/" p) eqn:E.
    + destruct (split_last_slash p E) as (a & b & -> & Hb).
      unfold Uploader.basename at 1. rewrite last_component_slash.
      unfold Uploader.basename. by rewrite last_component_plain.
    + unfold Uploader.basename. by rewrite last_component_plain.
Qed.

Lemma add_rows_ok rows stage_files :
  Forall (fun row => row <> []) rows ->
  exists result_set,
    for_each Uploader.add_row rows stage_files = Ok result_set
    /\ forall name,
         name ∈ result_set
         <-> name ∈ stage_files
             \/ exists row path, row ∈ rows /\ head row = Some path
                                 /\ name = Uploader.basename path.
Proof.
  intros Hr. revert stage_files.
  induction Hr as [|row rows Hrow Hr IH]; intros stage_files.
  - exists stage_files. split; [done|]. intros name. split; [by left|].
    intros [?|(row & path & Hin & _)]; [done|]. by apply elem_of_nil in Hin.
  - destruct row as [|path cells]; [done|]. cbn [for_each].
    change (Uploader.add_row stage_files (path :: cells))
      with (Ok (A:=gset string) ({[Uploader.basename path]} ∪ stage_files)).
    cbn [mbind result_bind].
    destruct (IH ({[Uploader.basename path]} ∪ stage_files)) as (res & -> & Hres).
    exists res. split; [done|]. intros name. rewrite Hres, elem_of_union, elem_of_singleton.
    split.
    + intros [[->|?]|(row & p & Hin & Hh & ->)].
      * right. exists (path :: cells), path. split; [apply list_elem_of_here|done].
      * by left.
      * right. exists row, p. split; [by apply list_elem_of_further|done].
    + intros [?|(row & p & Hin & Hh & ->)]; [by left; right|].
      apply elem_of_cons in Hin as [->|Hin].
      * cbn in Hh. simplify_eq. by left; left.
      * right. by exists row, p.
Qed.

Lemma add_rows_malformed rows stage_files :
  [] ∈ rows -> exists e, for_each Uploader.add_row rows stage_files = Raise e.
Proof.
  intros Hin. apply (for_each_raises Uploader.add_row rows [] stage_files Hin).
  intros st. by eexists.
Qed.

(** When the listing succeeds, the stage files are the names, without
    directories, of the first column of the rows. *)
Theorem stage_files_are_listed_names (conn : Uploader.Connection) (stage_name : string)
    (cur : Uploader.Cursor) (rows : list Uploader.StageRow) :
  Uploader.cursor conn = Ok cur ->
  Uploader.execute cur ("LIST @" +:+ stage_name) = Ok tt ->
  Uploader.fetchall cur = Ok rows ->
  Uploader.close cur = Ok tt ->
  Forall (fun row => row <> []) rows ->
  forall name,
    name ∈ fst (Uploader.get_stage_files conn stage_name)
    <-> exists row path, row ∈ rows /\ head row = Some path
                         /\ name = Uploader.basename path.
Proof.
  intros Hc He Hf Hcl Hr name.
  destruct (add_rows_ok rows ∅ Hr) as (res & Hres & Hname).
  unfold Uploader.get_stage_files, Uploader.list_stage.
  rewrite Hc. cbn [mbind result_bind]. rewrite He. cbn [mbind result_bind].
  rewrite Hf. cbn [mbind result_bind]. rewrite Hres. cbn [mbind result_bind].
  rewrite Hcl. cbn [mbind result_bind mret result_ret fst]. rewrite Hname.
  split; [|by right]. by intros [?|?].
Qed.

(** One row without columns spoils the whole listing: the names already
    read are dropped and the stage counts as empty. *)
Theorem malformed_row_empties_listing (conn : Uploader.Connection)
    (stage_name : string) (cur : Uploader.Cursor) (rows : list Uploader.StageRow) :
  Uploader.cursor conn = Ok cur ->
  Uploader.execute cur ("LIST @" +:+ stage_name) = Ok tt ->
  Uploader.fetchall cur = Ok rows ->
  [] ∈ rows ->
  fst (Uploader.get_stage_files conn stage_name) = ∅.
Proof.
  intros Hc He Hf Hin.
  destruct (add_rows_malformed rows ∅ Hin) as [e Hres].
  unfold Uploader.get_stage_files, Uploader.list_stage.
  rewrite Hc. cbn [mbind result_bind]. rewrite He. cbn [mbind result_bind].
  rewrite Hf. cbn [mbind result_bind]. by rewrite Hres.
Qed.

Lemma upload_plan_loop stage_files local_files files_to_upload already_uploaded :
  fold_left (Uploader.classify stage_files) local_files
    (files_to_upload, already_uploaded)
  = (files_to_upload
     ++ filter (fun f => Uploader.basename f ∉ stage_files) local_files,
     already_uploaded
     ++ filter (fun f => Uploader.basename f ∈ stage_files) local_files).
Proof.
  revert files_to_upload already_uploaded.
  induction local_files as [|f l IH]; intros up al.
  - by rewrite !app_nil_r.
  - cbn [fold_left Uploader.classify]. rewrite !filter_cons.
    destruct (decide (Uploader.basename f ∉ stage_files)) as [Hn|Hn].
    + rewrite IH, decide_False by done. by rewrite <- app_assoc.
    + rewrite IH, decide_True by (by apply dec_stable). by rewrite <- app_assoc.
Qed.

Lemma upload_plan_filter (local_files : list string) (stage_files : gset string) :
  Uploader.upload_plan local_files stage_files
  = (filter (fun f => Uploader.basename f ∉ stage_files) local_files,
     filter (fun f => Uploader.basename f ∈ stage_files) local_files).
Proof. apply (upload_plan_loop stage_files local_files [] []). Qed.

(** The plan splits the local files, keeping their order: to upload are
    those whose name is not in the stage, the others are already there. *)
Theorem upload_plan_splits_by_name (local_files : list string)
    (stage_files : gset string) :
  Uploader.upload_plan local_files stage_files
  = (filter (fun f => Uploader.basename f ∉ stage_files) local_files,
     filter (fun f => Uploader.basename f ∈ stage_files) local_files).
Proof. apply upload_plan_filter. Qed.

(** A file counts as uploaded only when every call on the cursor, the
    closing included, succeeded and the seventh column of the reply
    holds UPLOADED in any case of letters. *)
Theorem upload_file_uploaded_iff (cur : result Uploader.PutCursor)
    (abs_path stage_name : string) :
  Uploader.upload_file cur abs_path stage_name = Uploader.Uploaded
  <-> exists c row status,
        cur = Ok c
        /\ Uploader.put_execute c (Uploader.put_sql abs_path stage_name) = Ok tt
        /\ Uploader.fetchone c = Ok (Some row)
        /\ Uploader.put_close c = Ok tt
        /\ row !! 6%nat = Some status
        /\ contains "UPLOADED" (upper status) = true.
Proof.
  unfold Uploader.upload_file, Uploader.try_upload. split.
  - destruct cur as [c|e]; [|done]. cbn [mbind result_bind].
    destruct (Uploader.put_execute c _) as [[]|e] eqn:Ee; [|done]. cbn [mbind result_bind].
    destruct (Uploader.fetchone c) as [reply|e] eqn:Ef; [|done]. cbn [mbind result_bind].
    destruct (Uploader.put_close c) as [[]|e] eqn:Ec; [|done]. cbn [mbind result_bind].
    unfold Uploader.put_status. destruct reply as [[|x row]|]; [done| |done].
    destruct (_ !! _) as [status|] eqn:Es; [|done].
    destruct (contains "UPLOADED" (upper status)) eqn:Eu.
    + intros _. by exists c, (x :: row), status.
    + by destruct (contains "SKIPPED" (upper status)).
  - intros (c & row & status & -> & He & Hf & Hc & Hs & Hu).
    cbn [mbind result_bind]. rewrite He. cbn [mbind result_bind].
    rewrite Hf. cbn [mbind result_bind]. rewrite Hc. cbn [mbind result_bind].
    unfold Uploader.put_status. destruct row as [|x row]; [done|].
    by rewrite Hs, Hu.
Qed.

Lemma count_total st o :
  let '(u, s, f) := st in
  let '(u', s', f') := Uploader.count st o in
  (u' + s' + f' = S (u + s + f))%nat.
Proof. destruct st as [[u s] f], o; cbn; lia. Qed.

Lemma upload_loop_counts env stage_name files k (st : Uploader.counts) :
  Forall (fun f => exists n, Uploader.stat_size env f = Ok n) files ->
  exists u s f,
    for_each (Uploader.upload_step env stage_name) (enumerate k files) st = Ok (u, s, f)
    /\ (u + s + f = fst (fst st) + snd (fst st) + snd st + length files)%nat.
Proof.
  intros Hf. revert k st. induction Hf as [|file files [n Hn] Hf IH]; intros k st.
  - destruct st as [[u s] f]. exists u, s, f. split; [done|]. cbn. lia.
  - cbn [enumerate for_each].
    set (o := Uploader.upload_file (Uploader.put_cursor env k)
                (Uploader.abspath env file) stage_name).
    assert (Uploader.upload_step env stage_name st (k, file)
            = Ok (Uploader.count st o)) as ->.
    { unfold Uploader.upload_step. by rewrite Hn. }
    cbn [mbind result_bind].
    destruct (IH (S k) (Uploader.count st o)) as (u & s & f & -> & Hsum).
    exists u, s, f. split; [done|]. rewrite Hsum.
    pose proof (count_total st o) as Hc.
    destruct st as [[u0 s0] f0]. destruct (Uploader.count (u0, s0, f0) o) as [[u1 s1] f1].
    cbn in *. lia.
Qed.

Lemma total_upload_size_ok env files total :
  Forall (fun f => exists n, Uploader.stat_size env f = Ok n) files ->
  exists n, for_each (fun total_size file_path =>
                        file_size ← Uploader.stat_size env file_path;
                        mret (total_size + file_size)) files total = Ok n.
Proof.
  intros Hf. revert total. induction Hf as [|file files [n Hn] Hf IH]; intros total.
  - by exists total.
  - cbn [for_each]. rewrite Hn. cbn [mbind result_bind mret result_ret]. apply IH.
Qed.

(** When the size of every file can be read the loop ends, and every
    file is counted once, as uploaded, skipped or failed. *)
Theorem upload_counts_add_up (env : Uploader.Transfer) (stage_name : string)
    (files_to_upload : list string) :
  Forall (fun f => exists n, Uploader.stat_size env f = Ok n) files_to_upload ->
  exists uploaded_count skipped_count failed_count,
    Uploader.upload_all env stage_name files_to_upload
    = Ok (uploaded_count, skipped_count, failed_count)
    /\ (uploaded_count + skipped_count + failed_count = length files_to_upload)%nat.
Proof.
  intros Hf. unfold Uploader.upload_all, Uploader.total_upload_size.
  destruct (total_upload_size_ok env files_to_upload 0 Hf) as [n ->].
  cbn [mbind result_bind].
  destruct (upload_loop_counts env stage_name files_to_upload 1 (0, 0, 0)%nat Hf)
    as (u & s & f & -> & Hsum).
  exists u, s, f. split; [done|]. cbn in Hsum. lia.
Qed.

(** A file whose size cannot be read stops the run before the first
    upload: the exception leaves [upload_all]. *)
Theorem unreadable_file_aborts_uploads (env : Uploader.Transfer) (stage_name : string)
    (files_to_upload : list string) (file : string) (e : exn) :
  file ∈ files_to_upload ->
  Uploader.stat_size env file = Raise e ->
  exists e', Uploader.total_upload_size env files_to_upload = Raise e'
             /\ Uploader.upload_all env stage_name files_to_upload = Raise e'.
Proof.
  intros Hin He.
  destruct (for_each_raises
              (fun total_size file_path =>
                 file_size ← Uploader.stat_size env file_path;
                 mret (total_size + file_size)) files_to_upload file 0 Hin) as [e' He'].
  { intros st. exists e. by rewrite He. }
  exists e'. unfold Uploader.upload_all, Uploader.total_upload_size.
  split; [done|]. by rewrite He'.
Qed.

Lemma upload_loop_counts_inv env stage_name files k (st : Uploader.counts) u s f :
  for_each (Uploader.upload_step env stage_name) (enumerate k files) st = Ok (u, s, f) ->
  (u + s + f = fst (fst st) + snd (fst st) + snd st + length files)%nat.
Proof.
  revert k st. induction files as [|file files IH]; intros k st.
  - cbn. intros [= ->]. cbn. lia.
  - cbn [enumerate for_each].
    set (o := Uploader.upload_file (Uploader.put_cursor env k)
                (Uploader.abspath env file) stage_name).
    destruct (Uploader.stat_size env file) as [n|e] eqn:Hn.
    + assert (Uploader.upload_step env stage_name st (k, file)
              = Ok (Uploader.count st o)) as ->.
      { unfold Uploader.upload_step. by rewrite Hn. }
      cbn [mbind result_bind]. intros H. apply IH in H. rewrite H.
      pose proof (count_total st o) as Hc.
      destruct st as [[u0 s0] f0].
      destruct (Uploader.count (u0, s0, f0) o) as [[u1 s1] f1].
      cbn in *. lia.
    + assert (Uploader.upload_step env stage_name st (k, file) = Raise e) as ->.
      { unfold Uploader.upload_step. by rewrite Hn. }
      done.
Qed.

Lemma upload_all_counts_inv env stage_name files u s f :
  Uploader.upload_all env stage_name files = Ok (u, s, f) ->
  (u + s + f = length files)%nat.
Proof.
  unfold Uploader.upload_all.
  destruct (Uploader.total_upload_size env files) as [n|e]; [|done].
  cbn [mbind result_bind]. intros H. apply upload_loop_counts_inv in H. cbn in H. lia.
Qed.

Lemma filter_all_staged (stage_files : gset string) (l : list string) :
  Forall (fun f => Uploader.basename f ∈ stage_files) l ->
  filter (fun f => Uploader.basename f ∉ stage_files) l = [].
Proof.
  induction 1 as [|f l Hf Hl IH]; [done|].
  rewrite filter_cons, decide_False by (by intros ?). exact IH.
Qed.

(** A run that finds every local file in the stage transfers nothing. *)
Theorem staged_files_are_not_uploaded_again (conn : Uploader.Connection)
    (env : Uploader.Transfer) (stage_name : string) (local_files : list string) :
  local_files <> [] ->
  Forall (fun f => Uploader.basename f
                   ∈ fst (Uploader.get_stage_files conn stage_name)) local_files ->
  Uploader.conn_close env = Ok tt ->
  Uploader.upload_av_files conn env stage_name local_files = Ok Uploader.AllUploaded.
Proof.
  intros Hne Hall Hclose. unfold Uploader.upload_av_files. rewrite Hclose.
  unfold Uploader.upload_body. destruct local_files as [|f0 l0]; [done|].
  rewrite upload_plan_filter. cbn [fst].
  by rewrite (filter_all_staged _ _ Hall).
Qed.

(** A run that ends with a summary has counted every file that was not
    in the stage exactly once, there was at least one, and the stage was
    listed again exactly when something was uploaded. *)
Theorem summary_counts_files_to_upload (conn : Uploader.Connection)
    (env : Uploader.Transfer) (stage_name : string) (local_files : list string)
    (uploaded_count skipped_count failed_count : nat) (total_in_stage : option nat) :
  Uploader.upload_av_files conn env stage_name local_files
  = Ok (Uploader.Summary (uploaded_count, skipped_count, failed_count) total_in_stage) ->
  let files_to_upload :=
    filter (fun f => Uploader.basename f
                     ∉ fst (Uploader.get_stage_files conn stage_name)) local_files in
  (uploaded_count + skipped_count + failed_count = length files_to_upload)%nat
  /\ files_to_upload <> []
  /\ (total_in_stage = None <-> uploaded_count = 0%nat).
Proof.
  unfold Uploader.upload_av_files.
  destruct (Uploader.conn_close env) as [[]|e]; [|done].
  unfold Uploader.upload_body. destruct local_files as [|f0 l0]; [done|].
  rewrite upload_plan_filter. cbn [fst].
  set (files := filter _ (f0 :: l0)).
  destruct files as [|f1 l1] eqn:Ef; [done|]. rewrite <- Ef.
  destruct (Uploader.upload_all env stage_name files) as [[[u s] f]|e] eqn:Eu; [|done].
  cbn [mbind result_bind fst]. apply upload_all_counts_inv in Eu.
  destruct (0 <? u)%nat eqn:Epos.
  - destruct (Uploader.stage_total _ _) as [total|e]; [|done].
    cbn [mbind result_bind mret result_ret]. intros [= <- <- <- <-].
    apply Nat.ltb_lt in Epos. split; [done|]. split; [by rewrite Ef|].
    split; [done|lia].
  - cbn [mret result_ret]. intros [= <- <- <- <-].
    apply Nat.ltb_ge in Epos. split; [done|]. split; [by rewrite Ef|].
    split; [lia|done].
Qed.

(** ** The further properties at sample inputs *)

Lemma two_hits_matching :
  matching_indices (sorted_by_start_time two_hits) "hi" = [0; 1]%nat.
Proof. vm_compute. reflexivity. Qed.

Lemma two_hits_numeric : Forall numeric_start two_hits.
Proof. repeat constructor. Qed.

Lemma scenario_numeric : Forall numeric_start scenario.
Proof. repeat constructor. Qed.

Lemma context_group_is_first_window_witness :
  Forall numeric_start two_hits
  /\ "hi" <> ""
  /\ 1%nat ∈ matching_indices (sorted_by_start_time two_hits) "hi"
  /\ in_window (length (sorted_by_start_time two_hits)) 1 1 0
  /\ exists seg g,
       sorted_by_start_time two_hits !! 0%nat = Some seg
       /\ tag seg 0 g ∈ find_matching_segments_with_context two_hits "hi" 1
       /\ g ∈ matching_indices (sorted_by_start_time two_hits) "hi"
       /\ in_window (length (sorted_by_start_time two_hits)) 1 g 0
       /\ (g <= 1)%nat.
Proof.
  assert ("hi" <> "") as Ht by done.
  assert (1%nat ∈ matching_indices (sorted_by_start_time two_hits) "hi") as Hm.
  { rewrite two_hits_matching. apply list_elem_of_further, list_elem_of_here. }
  assert (in_window (length (sorted_by_start_time two_hits)) 1 1 0) as Hw.
  { vm_compute. lia. }
  split; [exact two_hits_numeric|].
  split; [exact Ht|]. split; [exact Hm|]. split; [exact Hw|].
  exact (context_group_is_first_window two_hits "hi" 1 1 0 two_hits_numeric Ht Hm Hw).
Defined.

Lemma match_tagged_iff_isolated_witness :
  Forall numeric_start two_hits
  /\ "hi" <> ""
  /\ 1%nat ∈ matching_indices (sorted_by_start_time two_hits) "hi"
  /\ exists seg g,
       sorted_by_start_time two_hits !! 1%nat = Some seg
       /\ tag seg 1 g ∈ find_matching_segments_with_context two_hits "hi" 0
       /\ (is_match (tag seg 1 g) = Some true
           <-> forall m, m ∈ matching_indices (sorted_by_start_time two_hits) "hi" ->
                         (m < 1)%nat -> (0 < 1 - m)%nat).
Proof.
  assert ("hi" <> "") as Ht by done.
  assert (1%nat ∈ matching_indices (sorted_by_start_time two_hits) "hi") as Hm.
  { rewrite two_hits_matching. apply list_elem_of_further, list_elem_of_here. }
  split; [exact two_hits_numeric|]. split; [exact Ht|]. split; [exact Hm|].
  exact (match_tagged_iff_isolated two_hits "hi" 0 1 two_hits_numeric Ht Hm).
Defined.

Lemma context_segments_are_tagged_copies_witness :
  Forall numeric_start two_hits
  /\ exists s,
    s ∈ find_matching_segments_with_context two_hits "hi" 1
    /\ exists seg i g,
         seg ∈ two_hits
         /\ s = tag seg i g
         /\ g ∈ matching_indices (sorted_by_start_time two_hits) "hi"
         /\ (is_match s = Some true -> substring_of (lower "hi") (lower (get_text s))).
Proof.
  split; [exact two_hits_numeric|].
  exists (tag (segment "A" "hi" (of_int 0) (of_int 1)) 0 0).
  assert (tag (segment "A" "hi" (of_int 0) (of_int 1)) 0 0
          ∈ find_matching_segments_with_context two_hits "hi" 1) as Hs.
  { vm_compute. apply list_elem_of_here. }
  split; [exact Hs|].
  exact (context_segments_are_tagged_copies two_hits "hi" 1 _ two_hits_numeric Hs).
Defined.

Lemma grouped_keeps_text_witness :
  Forall numeric_start scenario
  /\ join " " (get_text <$> display_speaker_transcript.grouped scenario)
     = join " " (stripped_text <$> sorted_by_start_time scenario)
  /\ (length (display_speaker_transcript.grouped scenario) <= length scenario)%nat.
Proof.
  split; [exact scenario_numeric|].
  exact (grouped_keeps_text scenario scenario_numeric).
Defined.

Lemma grouped_sorted_witness :
  Forall numeric_start scenario
  /\ StronglySorted start_le (display_speaker_transcript.grouped scenario).
Proof.
  assert (Forall numeric_start scenario) as H by (repeat constructor).
  split; [exact H|]. exact (grouped_sorted scenario H).
Defined.

Lemma grouped_is_maximal_witness :
  display_speaker_transcript.grouped scenario !! 0%nat
  = Some (segment "A" "hello world" (of_int 0) (of_int 4))
  /\ display_speaker_transcript.grouped scenario !! 1%nat
     = Some (segment "B" "hi" (of_int 5) (of_int 6))
  /\ (get_speaker (segment "B" "hi" (of_int 5) (of_int 6))
      <> get_speaker (segment "A" "hello world" (of_int 0) (of_int 4))
      \/ float_truthy (get_end_time (segment "A" "hello world" (of_int 0) (of_int 4)))
         = false
      \/ close_in_time (segment "A" "hello world" (of_int 0) (of_int 4))
           (segment "B" "hi" (of_int 5) (of_int 6)) = false).
Proof.
  assert (display_speaker_transcript.grouped scenario !! 0%nat
          = Some (segment "A" "hello world" (of_int 0) (of_int 4))) as H0
    by (vm_compute; reflexivity).
  assert (display_speaker_transcript.grouped scenario !! 1%nat
          = Some (segment "B" "hi" (of_int 5) (of_int 6))) as H1
    by (vm_compute; reflexivity).
  split; [exact H0|]. split; [exact H1|].
  exact (grouped_is_maximal scenario 0 _ _ H0 H1).
Defined.

Lemma grouped_without_end_times_witness :
  Forall numeric_start open_ended
  /\ Forall (fun s => float_truthy (get_end_time s) = false) open_ended
  /\ display_speaker_transcript.grouped open_ended
     = (fun s => fuse (s, [])) <$> sorted_by_start_time open_ended.
Proof.
  assert (Forall (fun s => float_truthy (get_end_time s) = false) open_ended) as H
    by (repeat constructor).
  assert (Forall numeric_start open_ended) as Hn by (repeat constructor).
  split; [exact Hn|]. split; [exact H|].
  exact (grouped_without_end_times open_ended Hn H).
Defined.

Lemma silent_first_renderable :
  Forall (fun s => has_text s -> renderable s) silent_first.
Proof.
  assert (forall s, (exists a, srt_timestamp (get_start_time s) = Ok a) ->
                    (exists b, srt_timestamp (get_end_time s) = Ok b) ->
                    has_text s -> renderable s) as H by (by intros s ? ? _).
  apply Forall_cons_2; [|apply Forall_cons_2; [|apply Forall_nil_2]];
    apply H; eexists; vm_compute; reflexivity.
Qed.

Lemma speaker_srt_entries_witness :
  Forall numeric_start silent_first
  /\ silent_first <> []
  /\ Forall (fun s => has_text s -> renderable s) silent_first
  /\ convert_speaker_segments_to_srt (Some silent_first) None true
     = Ok (Some (join nl (positioned (speaker_text true) 1
                            (sorted_by_start_time silent_first))))
  /\ length (positioned (speaker_text true) 1 (sorted_by_start_time silent_first))
     = length (filter has_text silent_first).
Proof.
  assert (silent_first <> []) as Hne by done.
  assert (Forall numeric_start silent_first) as Hn by (repeat constructor).
  split; [exact Hn|]. split; [exact Hne|]. split; [exact silent_first_renderable|].
  exact (speaker_srt_entries silent_first None true Hn Hne silent_first_renderable).
Defined.

Lemma silent_has_no_text : Forall (fun s => ~ has_text s) silent.
Proof. repeat constructor; vm_compute; discriminate. Qed.

Lemma srt_of_silent_segments_witness :
  silent <> []
  /\ Forall (fun s => ~ has_text s) silent
  /\ convert_speaker_segments_to_srt (Some silent) None true = Ok (Some "")
  /\ convert_search_results_to_srt (Some silent) None "hi" true = Ok (Some "").
Proof.
  assert (silent <> []) as Hne by done.
  split; [exact Hne|]. split; [exact silent_has_no_text|].
  exact (srt_of_silent_segments silent None "hi" true Hne silent_has_no_text).
Defined.

Lemma srt_raises_on_bad_time_witness :
  nan_start ∈ [nan_start]
  /\ has_text nan_start
  /\ (is_finite (get_start_time nan_start) = false
      \/ is_finite (get_end_time nan_start) = false)
  /\ (exists e, convert_speaker_segments_to_srt (Some [nan_start]) None true = Raise e)
  /\ (exists e, convert_search_results_to_srt (Some [nan_start]) None "x" true
                = Raise e).
Proof.
  assert (nan_start ∈ [nan_start]) as Hin by apply list_elem_of_here.
  assert (has_text nan_start) as Ht by reflexivity.
  assert (is_finite (get_start_time nan_start) = false
          \/ is_finite (get_end_time nan_start) = false) as Hb by (by left).
  split; [exact Hin|]. split; [exact Ht|]. split; [exact Hb|].
  exact (srt_raises_on_bad_time [nan_start] None "x" true nan_start Hin Ht Hb).
Defined.

Lemma silent_first_finite : Forall finite_times silent_first.
Proof. repeat constructor. Qed.

Lemma speaker_csv_table_witness :
  silent_first <> []
  /\ Forall finite_times silent_first
  /\ exists header : DataFrame,
       convert_speaker_segments_to_csv (fun x => x) (fun _ => "0.0") "2024-01-01 00:00:00"
         (Some silent_first) None
       = Ok (Some (header
                   ++ numbered_rows (speaker_csv_row (fun x => x)) 1
                        (sorted_by_start_time silent_first)))
       /\ length header = (if file_info_truthy None then 5 else 0)%nat
       /\ length (numbered_rows (speaker_csv_row (fun x => x)) 1
                    (sorted_by_start_time silent_first))
          = length silent_first
       /\ Forall (fun r => fst <$> r = speaker_columns)
            (header
             ++ numbered_rows (speaker_csv_row (fun x => x)) 1
                  (sorted_by_start_time silent_first)).
Proof.
  assert (silent_first <> []) as Hne by done.
  split; [exact Hne|]. split; [exact silent_first_finite|].
  exact (speaker_csv_table (fun x => x) (fun _ => "0.0") "2024-01-01 00:00:00"
           silent_first None Hne silent_first_finite).
Defined.

Lemma search_csv_table_witness :
  silent_first <> []
  /\ Forall finite_times silent_first
  /\ exists header : DataFrame,
       convert_search_results_to_csv (fun x => x) (fun _ => "0.0") "2024-01-01 00:00:00"
         (Some silent_first) None "hello"
       = Ok (Some (header
                   ++ numbered_rows (search_csv_row (fun x => x)) 1
                        (sorted_by_start_time silent_first)))
       /\ length header = (if file_info_truthy None then 6 else 0)%nat
       /\ length (numbered_rows (search_csv_row (fun x => x)) 1
                    (sorted_by_start_time silent_first))
          = length silent_first
       /\ Forall (fun r => fst <$> r = search_columns)
            (header
             ++ numbered_rows (search_csv_row (fun x => x)) 1
                  (sorted_by_start_time silent_first)).
Proof.
  assert (silent_first <> []) as Hne by done.
  split; [exact Hne|]. split; [exact silent_first_finite|].
  exact (search_csv_table (fun x => x) (fun _ => "0.0") "2024-01-01 00:00:00" "hello"
           silent_first None Hne silent_first_finite).
Defined.

Lemma csv_raises_on_bad_time_witness :
  nan_start ∈ [nan_start]
  /\ (is_finite (get_start_time nan_start) = false
      \/ is_finite (get_end_time nan_start) = false)
  /\ (exists e, convert_speaker_segments_to_csv (fun x => x) (fun _ => "0.0") ""
                  (Some [nan_start]) None = Raise e)
  /\ (exists e, convert_search_results_to_csv (fun x => x) (fun _ => "0.0") ""
                  (Some [nan_start]) None "x" = Raise e).
Proof.
  assert (nan_start ∈ [nan_start]) as Hin by apply list_elem_of_here.
  assert (is_finite (get_start_time nan_start) = false
          \/ is_finite (get_end_time nan_start) = false) as Hb by (by left).
  split; [exact Hin|]. split; [exact Hb|].
  exact (csv_raises_on_bad_time (fun x => x) (fun _ => "0.0") "" "x" [nan_start] None
           nan_start Hin Hb).
Defined.

Lemma basename_drops_directories_witness :
  contains "/" "a.mp3" = false /\ Uploader.basename "a.mp3" = "a.mp3".
Proof.
  assert (contains "/" "a.mp3" = false) as H by reflexivity.
  split; [exact H|].
  exact (proj1 (proj2 basename_drops_directories) "a.mp3" H).
Defined.

Lemma stage_files_are_listed_names_witness :
  Forall (fun row => row <> []) two_rows
  /\ ("b.mp4" ∈ fst (Uploader.get_stage_files (listing two_rows) "DB.SCHEMA.STAGE")
      <-> exists row path, row ∈ two_rows /\ head row = Some path
                           /\ "b.mp4" = Uploader.basename path).
Proof.
  assert (Forall (fun row : Uploader.StageRow => row <> []) two_rows) as Hr.
  { repeat constructor; discriminate. }
  split; [exact Hr|].
  exact (stage_files_are_listed_names (listing two_rows) "DB.SCHEMA.STAGE" _ two_rows
           eq_refl eq_refl eq_refl eq_refl Hr "b.mp4").
Defined.

Lemma malformed_row_empties_listing_witness :
  [] ∈ spoiled_rows
  /\ fst (Uploader.get_stage_files (listing spoiled_rows) "DB.SCHEMA.STAGE") = ∅.
Proof.
  assert ([] ∈ spoiled_rows) as Hin.
  { apply list_elem_of_further, list_elem_of_here. }
  split; [exact Hin|].
  exact (malformed_row_empties_listing (listing spoiled_rows) "DB.SCHEMA.STAGE" _
           spoiled_rows eq_refl eq_refl eq_refl Hin).
Defined.

Lemma upload_counts_add_up_witness :
  Forall (fun f => exists n, Uploader.stat_size smooth f = Ok n) ["a.mp3"; "c.wav"]
  /\ exists uploaded_count skipped_count failed_count,
       Uploader.upload_all smooth "DB.SCHEMA.STAGE" ["a.mp3"; "c.wav"]
       = Ok (uploaded_count, skipped_count, failed_count)
       /\ (uploaded_count + skipped_count + failed_count
           = length ["a.mp3"; "c.wav"])%nat.
Proof.
  assert (Forall (fun f => exists n, Uploader.stat_size smooth f = Ok n)
            ["a.mp3"; "c.wav"]) as H.
  { repeat constructor; by eexists. }
  split; [exact H|].
  exact (upload_counts_add_up smooth "DB.SCHEMA.STAGE" ["a.mp3"; "c.wav"] H).
Defined.

Lemma unreadable_file_aborts_uploads_witness :
  "a.mp3" ∈ ["a.mp3"]
  /\ Uploader.stat_size vanished "a.mp3" = Raise (Error "No such file or directory")
  /\ exists e', Uploader.total_upload_size vanished ["a.mp3"] = Raise e'
                /\ Uploader.upload_all vanished "DB.SCHEMA.STAGE" ["a.mp3"] = Raise e'.
Proof.
  assert ("a.mp3" ∈ ["a.mp3"]) as Hin by apply list_elem_of_here.
  split; [exact Hin|]. split; [reflexivity|].
  exact (unreadable_file_aborts_uploads vanished "DB.SCHEMA.STAGE" ["a.mp3"] "a.mp3" _
           Hin eq_refl).
Defined.

Lemma staged_files_are_not_uploaded_again_witness :
  ["videos/b.mp4"; "a.mp3"] <> []
  /\ Forall (fun f => Uploader.basename f
                      ∈ fst (Uploader.get_stage_files (listing two_rows)
                               "DB.SCHEMA.STAGE")) ["videos/b.mp4"; "a.mp3"]
  /\ Uploader.upload_av_files (listing two_rows) smooth "DB.SCHEMA.STAGE"
       ["videos/b.mp4"; "a.mp3"] = Ok Uploader.AllUploaded.
Proof.
  assert (["videos/b.mp4"; "a.mp3"] <> []) as Hne by done.
  assert (Forall (fun f => Uploader.basename f
                           ∈ fst (Uploader.get_stage_files (listing two_rows)
                                    "DB.SCHEMA.STAGE")) ["videos/b.mp4"; "a.mp3"]) as H.
  { apply Forall_cons_2; [|apply Forall_cons_2; [|apply Forall_nil_2]];
      vm_compute; set_solver. }
  split; [exact Hne|]. split; [exact H|].
  exact (staged_files_are_not_uploaded_again (listing two_rows) smooth
           "DB.SCHEMA.STAGE" _ Hne H eq_refl).
Defined.

Lemma summary_counts_files_to_upload_witness :
  Uploader.upload_av_files broken smooth "DB.SCHEMA.STAGE" ["a.mp3"; "c.wav"]
  = Ok (Uploader.Summary (2, 0, 0)%nat (Some 2%nat))
  /\ (2 + 0 + 0
      = length (filter (fun f => Uploader.basename f
                                 ∉ fst (Uploader.get_stage_files broken
                                          "DB.SCHEMA.STAGE")) ["a.mp3"; "c.wav"]))%nat.
Proof.
  assert (Uploader.upload_av_files broken smooth "DB.SCHEMA.STAGE" ["a.mp3"; "c.wav"]
          = Ok (Uploader.Summary (2, 0, 0)%nat (Some 2%nat))) as H
    by (vm_compute; reflexivity).
  split; [exact H|].
  exact (proj1 (summary_counts_files_to_upload broken smooth "DB.SCHEMA.STAGE"
                  ["a.mp3"; "c.wav"] 2 0 0 (Some 2%nat) H)).
Defined.
